(** * Project Management API: a shallow embedding of [main.py] and [schemas.py]

    The development follows the source file by file:
    - Python strings, [datetime], [ObjectId] and dictionaries as the code
      uses them;
    - the pydantic models of [schemas.py] as records;
    - the document store as three typed collections, read through their
      dictionary view with MongoDB's filter operators;
    - the request handlers of [main.py] in a state-and-error monad that
      threads the store and records every store call;
    - the properties of the handlers. *)

From Stdlib Require Import List String Ascii ZArith Lia Bool Arith.
From Stdlib Require Import Permutation Sorted DecimalString.
Import ListNotations.

Open Scope list_scope.
Open Scope string_scope.

Set Implicit Arguments.
Set Warnings "-register-all".


(* ================================================================== *)
(** ** Python strings *)

Module Py.

(** A Python string is kept as the bytes of its UTF-8 encoding: [chars]
    gives the bytes, [points] the characters, each as the bytes that encode
    it.  On ASCII text the two agree. *)

Definition code (a : ascii) : nat := nat_of_ascii a.

Definition chars (s : string) : list ascii := list_ascii_of_string s.
Definition text (l : list ascii) : string := string_of_list_ascii l.

(** The bytes [10xxxxxx], which continue a character. *)
Definition is_cont (a : ascii) : bool :=
  let n := code a in ((128 <=? n) && (n <? 192))%nat.

(** The characters of a string: a byte and the continuation bytes after it. *)
Fixpoint points (s : string) : list string :=
  match s with
  | EmptyString => []
  | String a s' =>
      match points s' with
      | String b p :: ps =>
          if is_cont b then String a (String b p) :: ps
          else String a "" :: String b p :: ps
      | ps => String a "" :: ps
      end
  end.

(** [len(s)] *)
Definition len (s : string) : nat := List.length (points s).

(** [s[:n]] *)
Definition slice_to (n : nat) (s : string) : string := concat "" (firstn n (points s)).

(** [chr(n)], in UTF-8. *)
Definition chr (n : N) : string :=
  let b (k : N) := ascii_of_N k in
  let cont (k : N) := b (128 + k mod 64)%N in
  if (n <? 128)%N then text [b n]
  else if (n <? 2048)%N then text [b (192 + n / 64)%N; cont n]
  else if (n <? 65536)%N then text [b (224 + n / 4096)%N; cont (n / 64)%N; cont n]
  else text [b (240 + n / 262144)%N; cont (n / 4096)%N; cont (n / 64)%N; cont n].

(** The characters for which [str.isspace] holds: the ones [str.strip]
    removes. *)
Definition whitespace : list N :=
  [9; 10; 11; 12; 13; 28; 29; 30; 31; 32; 133; 160; 5760;
   8192; 8193; 8194; 8195; 8196; 8197; 8198; 8199; 8200; 8201; 8202;
   8232; 8233; 8239; 8287; 12288]%N.

(** [c.isspace()] for one character. *)
Definition is_space (c : string) : bool := existsb (String.eqb c) (map chr whitespace).

Definition lower_ascii (a : ascii) : ascii :=
  let n := code a in
  if ((65 <=? n) && (n <=? 90))%nat then ascii_of_nat (n + 32) else a.

(** [s.lower()] as far as the letters A to Z go; the other characters are
    left as they are. *)
Definition lower (s : string) : string := text (map lower_ascii (chars s)).

Fixpoint lstrip_points (l : list string) : list string :=
  match l with
  | c :: l' => if is_space c then lstrip_points l' else l
  | [] => []
  end.

(** [s.strip()] *)
Definition strip (s : string) : string :=
  concat "" (rev (lstrip_points (rev (lstrip_points (points s))))).

(** [sep.join(parts)] *)
Fixpoint join (sep : string) (parts : list string) : string :=
  match parts with
  | [] => ""
  | [p] => p
  | p :: rest => p ++ sep ++ join sep rest
  end.

(** [str(n)] for integers. *)
Definition str_nat (n : nat) : string := NilZero.string_of_uint (Nat.to_uint n).
Definition str_int (z : Z) : string := NilZero.string_of_int (Z.to_int z).

Fixpoint zeros (n : nat) : string :=
  match n with O => "" | S n' => String "0" (zeros n') end.

(** ["%0wd" % n] *)
Definition zfill (w n : nat) : string :=
  let s := str_nat n in zeros (w - String.length s) ++ s.

Definition hex_digit (n : nat) : ascii :=
  if (n <? 10)%nat then ascii_of_nat (48 + n) else ascii_of_nat (87 + n).

(** [repr(s)] for a string: quote choice and escapes of [unicode_repr].
    The bytes of a character outside ASCII are copied, which is how [repr]
    prints the printable ones. *)
Definition has_char (c : ascii) (s : string) : bool :=
  existsb (Ascii.eqb c) (chars s).

Definition double_quote : ascii := ascii_of_nat 34.

Definition repr_quote (s : string) : ascii :=
  if has_char "'" s && negb (has_char double_quote s) then double_quote else "'"%char.

Definition repr_char (quote a : ascii) : string :=
  let n := code a in
  if Ascii.eqb a quote || Ascii.eqb a "\" then String "\" (String a "")
  else if (n =? 9)%nat then "\t"
  else if (n =? 10)%nat then "\n"
  else if (n =? 13)%nat then "\r"
  else if ((n <? 32) || (n =? 127))%nat
       then String "\" (String "x" (String (hex_digit (n / 16))
                                      (String (hex_digit (n mod 16)) "")))
  else String a "".

Definition repr_str (s : string) : string :=
  let q := repr_quote s in
  String q (concat "" (map (repr_char q) (chars s))) ++ String q "".

End Py.

(* ================================================================== *)
(** ** [datetime.datetime], [datetime.date], [bson.ObjectId] *)

Record datetime := mk_datetime {
  year : nat; month : nat; day : nat;
  hour : nat; minute : nat; second : nat; microsecond : nat
}.

Record date := mk_date { d_year : nat; d_month : nat; d_day : nat }.

Module Datetime.

Definition date_part (t : datetime) : string :=
  Py.zfill 4 (year t) ++ "-" ++ Py.zfill 2 (month t) ++ "-" ++ Py.zfill 2 (day t).

Definition time_part (t : datetime) : string :=
  Py.zfill 2 (hour t) ++ ":" ++ Py.zfill 2 (minute t) ++ ":" ++ Py.zfill 2 (second t)
  ++ (if (microsecond t =? 0)%nat then "" else "." ++ Py.zfill 6 (microsecond t)).

(** [t.isoformat(sep)] of a naive datetime. *)
Definition isoformat_sep (sep : string) (t : datetime) : string :=
  date_part t ++ sep ++ time_part t.

(** [t.isoformat()] *)
Definition isoformat (t : datetime) : string := isoformat_sep "T" t.

(** [str(t)] *)
Definition str (t : datetime) : string := isoformat_sep " " t.

(** [repr(t)]: trailing zero seconds and microseconds are dropped. *)
Definition repr (t : datetime) : string :=
  let base := [year t; month t; day t; hour t; minute t] in
  let args :=
    if (microsecond t =? 0)%nat
    then (if (second t =? 0)%nat then base else (base ++ [second t])%list)
    else (base ++ [second t; microsecond t])%list in
  "datetime.datetime(" ++ Py.join ", " (map Py.str_nat args) ++ ")".

Definition date_isoformat (d : date) : string :=
  Py.zfill 4 (d_year d) ++ "-" ++ Py.zfill 2 (d_month d) ++ "-" ++ Py.zfill 2 (d_day d).

Definition date_repr (d : date) : string :=
  "datetime.date(" ++ Py.join ", " (map Py.str_nat [d_year d; d_month d; d_day d]) ++ ")".

(** Chronological comparison: lexicographic on the fields. *)
Definition lex (c1 c2 : comparison) : comparison :=
  match c1 with Eq => c2 | _ => c1 end.

Definition compare (a b : datetime) : comparison :=
  lex (Nat.compare (year a) (year b))
 (lex (Nat.compare (month a) (month b))
 (lex (Nat.compare (day a) (day b))
 (lex (Nat.compare (hour a) (hour b))
 (lex (Nat.compare (minute a) (minute b))
 (lex (Nat.compare (second a) (second b))
      (Nat.compare (microsecond a) (microsecond b))))))).

(** [leb a b]: [a] is not later than [b]. *)
Definition leb (a b : datetime) : bool :=
  match compare a b with Gt => false | _ => true end.

Definition eqb (a b : datetime) : bool :=
  match compare a b with Eq => true | _ => false end.

Definition date_eqb (a b : date) : bool :=
  ((d_year a =? d_year b) && (d_month a =? d_month b) && (d_day a =? d_day b))%nat.

End Datetime.

(** An [ObjectId] holds bytes, twelve when the store makes it; it is kept
    here as the lower-case hexadecimal text of the bytes, which [str] gives
    back. *)
Record ObjectId := mk_oid { oid_hex : string }.

Module Oid.

(** The value of a hexadecimal digit, in either letter case. *)
Definition hex_value (a : ascii) : option nat :=
  let n := Py.code a in
  if ((48 <=? n) && (n <=? 57))%nat then Some (n - 48)
  else if ((97 <=? n) && (n <=? 102))%nat then Some (n - 87)
  else if ((65 <=? n) && (n <=? 70))%nat then Some (n - 55)
  else None.

Definition is_hex (a : ascii) : bool :=
  match hex_value a with Some _ => true | None => false end.

(** ASCII white space, which [bytes.fromhex] skips before and after a
    byte. *)
Definition is_blank (a : ascii) : bool :=
  let n := Py.code a in (((9 <=? n) && (n <=? 13)) || (n =? 32))%nat.

(** [bytes.fromhex(s)]: two digits for a byte, white space only between
    bytes; [None] for its [ValueError]. *)
Fixpoint fromhex (s : string) : option (list nat) :=
  match s with
  | EmptyString => Some []
  | String a s' =>
      if is_blank a then fromhex s'
      else match hex_value a, s' with
           | Some top, String b s'' =>
               match hex_value b with
               | Some bot => option_map (cons (16 * top + bot)) (fromhex s'')
               | None => None
               end
           | _, _ => None
           end
  end.

(** [bs.hex()] *)
Fixpoint hex (bs : list nat) : string :=
  match bs with
  | [] => ""
  | n :: bs' => String (Py.hex_digit (n / 16)) (String (Py.hex_digit (n mod 16)) (hex bs'))
  end.

(** [ObjectId.is_valid(s)] for a string: [ObjectId(s)] does not raise,
    which is when [s] has 24 characters and [bytes.fromhex] reads it.  A
    string that [bytes.fromhex] reads is ASCII, so its characters are its
    bytes. *)
Definition is_valid (s : string) : bool :=
  (String.length s =? 24)%nat
  && match fromhex s with Some _ => true | None => false end.

(** [ObjectId(s)] for a string [is_valid] accepts; the handlers build an
    identifier of a request text only behind that check. *)
Definition of_str (s : string) : ObjectId :=
  mk_oid (match fromhex s with Some bs => hex bs | None => "" end).

(** [str(oid)] *)
Definition str (o : ObjectId) : string := oid_hex o.

Definition repr (o : ObjectId) : string := "ObjectId('" ++ oid_hex o ++ "')".

Definition eqb (a b : ObjectId) : bool := String.eqb (oid_hex a) (oid_hex b).

End Oid.

(* ================================================================== *)
(** ** Values and dictionaries *)

Inductive value :=
| VNone
| VInt (z : Z)
| VStr (s : string)
| VOid (o : ObjectId)
| VDatetime (t : datetime)
| VDate (d : date)
| VList (l : list value)
| VDict (d : list (string * value)).

(** A Python [dict] with string keys, in insertion order. *)
Definition dict := list (string * value).

(** [bool(v)] *)
Definition truthy (v : value) : bool :=
  match v with
  | VNone => false
  | VInt z => negb (z =? 0)%Z
  | VStr s => negb (s =? "")
  | VOid _ | VDatetime _ | VDate _ => true
  | VList l => match l with [] => false | _ => true end
  | VDict d => match d with [] => false | _ => true end
  end.

Fixpoint py_repr (v : value) : string :=
  match v with
  | VNone => "None"
  | VInt z => Py.str_int z
  | VStr s => Py.repr_str s
  | VOid o => Oid.repr o
  | VDatetime t => Datetime.repr t
  | VDate d => Datetime.date_repr d
  | VList l => "[" ++ Py.join ", " (map py_repr l) ++ "]"
  | VDict d =>
      "{" ++ Py.join ", "
               (map (fun kv => let '(k, x) := kv in Py.repr_str k ++ ": " ++ py_repr x) d)
          ++ "}"
  end.

(** [str(v)] *)
Definition py_str (v : value) : string :=
  match v with
  | VStr s => s
  | VOid o => Oid.str o
  | VDatetime t => Datetime.str t
  | VDate d => Datetime.date_isoformat d
  | _ => py_repr v
  end.

Fixpoint value_eqb (a b : value) : bool :=
  match a, b with
  | VNone, VNone => true
  | VInt x, VInt y => (x =? y)%Z
  | VStr x, VStr y => String.eqb x y
  | VOid x, VOid y => Oid.eqb x y
  | VDatetime x, VDatetime y => Datetime.eqb x y
  | VDate x, VDate y => Datetime.date_eqb x y
  | VList x, VList y =>
      (fix go (x y : list value) : bool :=
         match x, y with
         | [], [] => true
         | a :: x', b :: y' => value_eqb a b && go x' y'
         | _, _ => false
         end) x y
  | VDict x, VDict y =>
      (fix go (x y : list (string * value)) : bool :=
         match x, y with
         | [], [] => true
         | (k, a) :: x', (k', b) :: y' => String.eqb k k' && value_eqb a b && go x' y'
         | _, _ => false
         end) x y
  | _, _ => false
  end.

Module Dict.

(** [d.get(k)] *)
Fixpoint get (d : dict) (k : string) : option value :=
  match d with
  | [] => None
  | (k', v) :: d' => if String.eqb k k' then Some v else get d' k
  end.

(** [d[k] = v]: an existing key keeps its place, a new one goes last. *)
Fixpoint set (d : dict) (k : string) (v : value) : dict :=
  match d with
  | [] => [(k, v)]
  | (k', v') :: d' =>
      if String.eqb k k' then (k, v) :: d' else (k', v') :: set d' k v
  end.

Definition is_empty (d : dict) : bool :=
  match d with [] => true | _ => false end.

(** The same update applied to every value. *)
Definition map_values (f : value -> value) (d : dict) : dict :=
  map (fun kv => (fst kv, f (snd kv))) d.

End Dict.

(* ================================================================== *)
(** ** [serialize_doc] *)

(** The loop body of [serialize_doc]: a [datetime] becomes its ISO text. *)
Definition iso_value (v : value) : value :=
  match v with
  | VDatetime t => VStr (Datetime.isoformat t)
  | _ => v
  end.

(** Lines 43 to 50: the copy, the identifier, the timestamps. *)
Definition serialize_dict (doc : dict) : dict :=
  let d := doc in
  let d :=
    match Dict.get d "_id" with
    | Some v => if truthy v then Dict.set d "_id" (VStr (py_str v)) else d
    | None => d
    end in
  Dict.map_values iso_value d.

(** [serialize_doc(doc)], with [None] for an absent document. *)
Definition serialize_doc (doc : option dict) : option dict :=
  match doc with
  | None => doc
  | Some d => if Dict.is_empty d then doc else Some (serialize_dict d)
  end.

(* ================================================================== *)
(** ** The pydantic models of [schemas.py] *)

Definition opt_str (o : option string) : value :=
  match o with Some s => VStr s | None => VNone end.

Definition opt_date (o : option date) : value :=
  match o with Some d => VDate d | None => VNone end.

Module Project.
Record t := mk {
  name : string;
  description : option string;
  status : string;
  owner : option string;
  start_date : option date;
  end_date : option date;
  progress : Z;
  priority : option string;
  tags : list string
}.

(** [project.model_dump()] *)
Definition model_dump (p : t) : dict :=
  [ ("name", VStr (name p));
    ("description", opt_str (description p));
    ("status", VStr (status p));
    ("owner", opt_str (owner p));
    ("start_date", opt_date (start_date p));
    ("end_date", opt_date (end_date p));
    ("progress", VInt (progress p));
    ("priority", opt_str (priority p));
    ("tags", VList (map VStr (tags p))) ].
End Project.

Module Task.
Record t := mk {
  project_id : string;
  title : string;
  description : option string;
  status : string;
  assignee : option string;
  due_date : option date;
  priority : option string
}.

Definition model_dump (x : t) : dict :=
  [ ("project_id", VStr (project_id x));
    ("title", VStr (title x));
    ("description", opt_str (description x));
    ("status", VStr (status x));
    ("assignee", opt_str (assignee x));
    ("due_date", opt_date (due_date x));
    ("priority", opt_str (priority x)) ].
End Task.

Module Note.
Record t := mk {
  project_id : string;
  author : option string;
  content : string
}.

Definition model_dump (x : t) : dict :=
  [ ("project_id", VStr (project_id x));
    ("author", opt_str (author x));
    ("content", VStr (content x)) ].
End Note.

(* ================================================================== *)
(** ** The document store *)

(** A stored document: the model's fields with the identifier and the
    creation time that the store assigned. *)
Record Stored (A : Type) := mk_stored {
  _id : ObjectId;
  fields : A;
  created_at : datetime
}.

(** The dictionary a query returns for a stored document. *)
Definition to_dict {A : Type} (dump : A -> dict) (x : Stored A) : dict :=
  ("_id", VOid (_id x)) :: (dump (fields x) ++ [("created_at", VDatetime (created_at x))])%list.

Definition project_dict : Stored Project.t -> dict := to_dict Project.model_dump.
Definition task_dict : Stored Task.t -> dict := to_dict Task.model_dump.
Definition note_dict : Stored Note.t -> dict := to_dict Note.model_dump.

(** The three collections, [db["project"]], [db["task"]], [db["note"]]. *)
Inductive collection := project | task | note.

Definition schema (c : collection) : Type :=
  match c with
  | project => Project.t
  | task => Task.t
  | note => Note.t
  end.

Record Database := mk_db {
  projects : list (Stored Project.t);
  tasks : list (Stored Task.t);
  notes : list (Stored Note.t)
}.

(** The documents of a collection, in the store's natural order. *)
Definition docs (db : Database) (c : collection) : list dict :=
  match c with
  | project => map project_dict (projects db)
  | task => map task_dict (tasks db)
  | note => map note_dict (notes db)
  end.

Definition insert_one (c : collection) : Stored (schema c) -> Database -> Database :=
  match c with
  | project => fun x db => mk_db (projects db ++ [x])%list (tasks db) (notes db)
  | task => fun x db => mk_db (projects db) (tasks db ++ [x])%list (notes db)
  | note => fun x db => mk_db (projects db) (tasks db) (notes db ++ [x])%list
  end.

(** *** What the interpreter and the store leave open

    Three behaviours of the platform are not fixed by the program text:
    the order in which a Python [set] is iterated, the store's regular
    expression engine behind [$regex] with option [i], and the case mapping
    of the interpreter's Unicode tables behind [str.lower]. *)
Class Platform := {
  (** [list(set(l))]: the elements of [l], each once, in the set's order. *)
  set_iter : list string -> list string;
  (** [regex_search pat]: [None] when the store rejects the pattern,
      otherwise the test "the pattern matches somewhere in the text,
      ignoring case". *)
  regex_search : string -> option (string -> bool);
  (** [s.lower()] *)
  str_lower : string -> string
}.

Class PlatformLaws (P : Platform) : Prop := {
  set_iter_perm : forall l, Permutation (set_iter l) (nodup string_dec l)
}.

(** [str.lower] maps every character to one character or more: the empty
    string, and no other, to the empty string. *)
Class CaseLaws (P : Platform) : Prop := {
  str_lower_empty : forall s, str_lower s = "" <-> s = ""
}.

(** *** Filters *)

Inductive cond :=
| CEq (v : value)                      (* {k: v} *)
| CIn (vs : list value)                (* {k: {"$in": vs}} *)
| CRegex (pat : string)                (* {k: {"$regex": pat, "$options": "i"}} *)
| CElemMatchRegex (pat : string).      (* {k: {"$elemMatch": {"$regex": pat, "$options": "i"}}} *)

Inductive query :=
| Field (k : string) (c : cond)
| And (qs : list query)                (* a filter with several keys; [And []] is {} *)
| Or (qs : list query).                (* {"$or": qs} *)

(** Equality of a stored value with a filter value: an array matches when
    it is the value or holds it. *)
Definition eq_match (v : value) (stored : option value) : bool :=
  match stored with
  | None => value_eqb VNone v
  | Some (VList l) => value_eqb (VList l) v || existsb (fun x => value_eqb x v) l
  | Some x => value_eqb x v
  end.

Definition str_match (m : string -> bool) (v : value) : bool :=
  match v with VStr s => m s | _ => false end.

Definition regex_match (m : string -> bool) (stored : option value) : bool :=
  match stored with
  | Some (VStr s) => m s
  | Some (VList l) => existsb (str_match m) l
  | _ => false
  end.

Definition elem_match (m : string -> bool) (stored : option value) : bool :=
  match stored with
  | Some (VList l) => existsb (str_match m) l
  | _ => false
  end.

Section Store.

Context {P : Platform}.

Definition compile_cond (c : cond) : option (option value -> bool) :=
  match c with
  | CEq v => Some (eq_match v)
  | CIn vs => Some (fun stored => existsb (fun v => eq_match v stored) vs)
  | CRegex pat =>
      match regex_search pat with
      | Some m => Some (regex_match m)
      | None => None
      end
  | CElemMatchRegex pat =>
      match regex_search pat with
      | Some m => Some (elem_match m)
      | None => None
      end
  end.

(** The test a filter stands for; [None] when the store rejects it. *)
Fixpoint compile (q : query) : option (dict -> bool) :=
  match q with
  | Field k c =>
      match compile_cond c with
      | Some p => Some (fun d => p (Dict.get d k))
      | None => None
      end
  | And qs =>
      (fix all (qs : list query) : option (dict -> bool) :=
         match qs with
         | [] => Some (fun _ => true)
         | q' :: rest =>
             match compile q', all rest with
             | Some p, Some r => Some (fun d => p d && r d)
             | _, _ => None
             end
         end) qs
  | Or qs =>
      (fix any (qs : list query) : option (dict -> bool) :=
         match qs with
         | [] => Some (fun _ => false)
         | q' :: rest =>
             match compile q', any rest with
             | Some p, Some r => Some (fun d => p d || r d)
             | _, _ => None
             end
         end) qs
  end.

End Store.

(** *** Cursors: [.limit(n)] and [.sort(key, -1)] *)

Definition cursor_limit (n : nat) (l : list dict) : list dict := firstn n l.

(** The sort key of a document: its timestamp under [key], absent and
    other values first in ascending order. *)
Definition sort_key (key : string) (d : dict) : option datetime :=
  match Dict.get d key with
  | Some (VDatetime t) => Some t
  | _ => None
  end.

Definition key_leb (a b : option datetime) : bool :=
  match a, b with
  | None, _ => true
  | Some _, None => false
  | Some x, Some y => Datetime.leb x y
  end.

Section Sorting.

Variable A : Type.
Variable key : A -> option datetime.

Fixpoint insert_desc (x : A) (l : list A) : list A :=
  match l with
  | [] => [x]
  | y :: l' =>
      if key_leb (key y) (key x)
      then x :: y :: l'
      else y :: insert_desc x l'
  end.

(** Insertion sort, latest first. *)
Definition sort_desc (l : list A) : list A := fold_right insert_desc [] l.

(** [later_first a b]: [a] may come before [b] in a list sorted latest
    first. *)
Definition later_first (a b : A) : Prop := key_leb (key b) (key a) = true.

End Sorting.

(** [.sort(key, -1)] *)
Definition cursor_sort_desc (key : string) (l : list dict) : list dict :=
  sort_desc (sort_key key) l.

(* ================================================================== *)
(** ** Handlers run in a state-and-error monad *)

Inductive error :=
| HTTPException (status_code : Z) (detail : string)
| ValidationError                  (* a request parameter out of its bounds *)
| OperationFailure                 (* the store rejects a query *)
| KeyError (k : string)
| TypeError.

Inductive result (A : Type) :=
| Ok (a : A)
| Err (e : error).
Arguments Ok {A} a.
Arguments Err {A} e.

(** One entry per call made to the store. *)
Inductive Call :=
| call_find (c : collection) (q : query)
| call_find_one (c : collection) (q : query)
| call_count_documents (c : collection) (q : query)
| call_distinct (c : collection) (key : string) (q : query)
| call_get_documents (c : collection) (filt : query) (limit : Z)
| call_create_document (c : collection).

Record World := mk_world {
  store : Database;
  calls : list Call
}.

Definition M (A : Type) : Type := World -> result A * World.

Definition ret {A} (a : A) : M A := fun w => (Ok a, w).

Definition raise {A} (e : error) : M A := fun w => (Err e, w).

Definition bind {A B} (m : M A) (k : A -> M B) : M B :=
  fun w =>
    match m w with
    | (Ok a, w') => k a w'
    | (Err e, w') => (Err e, w')
    end.

Notation "x <- m ;; k" := (bind m (fun x => k))
  (at level 61, m at next level, right associativity).

(** [try: m except Exception: h] *)
Definition try_except {A} (m : M A) (h : M A) : M A :=
  fun w =>
    match m w with
    | (Ok a, w') => (Ok a, w')
    | (Err _, w') => h w'
    end.

Definition record (c : Call) : M unit :=
  fun w => (Ok tt, mk_world (store w) (calls w ++ [c])%list).

Definition read_store : M Database := fun w => (Ok (store w), w).

Definition write_store (db : Database) : M unit :=
  fun w => (Ok tt, mk_world db (calls w)).

(** [for x in l: acc = f(acc, x)] *)
Fixpoint for_fold {A S} (f : S -> A -> M S) (s : S) (l : list A) : M S :=
  match l with
  | [] => ret s
  | x :: l' => s' <- f s x ;; for_fold f s' l'
  end.

(** [for x in l: out.append(f(x))] *)
Fixpoint for_each {A B} (f : A -> M B) (l : list A) : M (list B) :=
  match l with
  | [] => ret []
  | x :: l' => y <- f x ;; ys <- for_each f l' ;; ret (y :: ys)
  end.

(** [d[k]] *)
Definition item (d : dict) (k : string) : M value :=
  match Dict.get d k with
  | Some v => ret v
  | None => raise (KeyError k)
  end.

Section Handlers.

Context {P : Platform}.

(** *** Store operations *)

Definition run_filter (c : collection) (q : query) : M (list dict) :=
  db <- read_store ;;
  match compile q with
  | Some p => ret (filter p (docs db c))
  | None => raise OperationFailure
  end.

(** [list(db[c].find(q))] *)
Definition find (c : collection) (q : query) : M (list dict) :=
  _ <- record (call_find c q) ;;
  run_filter c q.

(** [db[c].find_one(q)] *)
Definition find_one (c : collection) (q : query) : M (option dict) :=
  _ <- record (call_find_one c q) ;;
  found <- run_filter c q ;;
  ret (hd_error found).

(** [db[c].count_documents(q)] *)
Definition count_documents (c : collection) (q : query) : M Z :=
  _ <- record (call_count_documents c q) ;;
  found <- run_filter c q ;;
  ret (Z.of_nat (List.length found)).

(** The text values of a field, one list per document. *)
Definition field_strings (key : string) (d : dict) : list string :=
  match Dict.get d key with
  | Some (VStr s) => [s]
  | _ => []
  end.

(** [db[c].distinct(key, q)] for a field declared [str] in the schema. *)
Definition distinct (c : collection) (key : string) (q : query) : M (list string) :=
  _ <- record (call_distinct c key q) ;;
  found <- run_filter c q ;;
  ret (nodup string_dec (flat_map (field_strings key) found)).

(** Modelled from the spec: [get_documents] of the module [database],
    which is not among the sources.  Section 4.2, List: the operation
    "accepts optional equality filters and a result-count limit" and
    "returns the filtered set"; section 8: it never returns more than the
    limit.  So: the documents that match, in store order, at most [limit]
    of them. *)
Definition get_documents (c : collection) (filt : query) (limit : Z) : M (list dict) :=
  _ <- record (call_get_documents c filt limit) ;;
  found <- run_filter c filt ;;
  ret (firstn (Z.to_nat limit) found).

(** Modelled from the spec: [create_document] of the module [database],
    which is not among the sources.  Section 4.2, Create: "inserts the
    document (store assigns identifier and creation timestamp)".  The
    assigned identifier [oid] and time [now] are arguments; the result is
    the identifier as text. *)
Definition create_document (c : collection) (data : schema c)
           (oid : ObjectId) (now : datetime) : M string :=
  _ <- record (call_create_document c) ;;
  db <- read_store ;;
  _ <- write_store (insert_one c (mk_stored oid data now) db) ;;
  ret (Oid.str oid).

(** *** Request parameters *)

(** [Query(default, le=cap)] on an optional integer parameter. *)
Definition Query (default cap : Z) (given : option Z) : M Z :=
  match given with
  | None => ret default
  | Some v => if (v <=? cap)%Z then ret v else raise ValidationError
  end.

(** [if s] for an optional string. *)
Definition given_str (s : option string) : option string :=
  match s with
  | Some x => if x =? "" then None else Some x
  | None => None
  end.

Definition eq_str (k v : string) : query := Field k (CEq (VStr v)).

(** *** Projects *)

Definition task_count (pid : value) (status : string) : M Z :=
  count_documents task (And [Field "project_id" (CEq pid); eq_str "status" status]).

Definition attach_counts (pid : value) (d : dict) : M dict :=
  n_open <- task_count pid "open" ;;
  n_prog <- task_count pid "in-progress" ;;
  n_done <- task_count pid "done" ;;
  let d := Dict.set d "task_counts"
             (VDict [("open", VInt n_open); ("in_progress", VInt n_prog);
                     ("done", VInt n_done)]) in
  n_notes <- count_documents note (And [Field "project_id" (CEq pid)]) ;;
  ret (Dict.set d "notes_count" (VInt n_notes)).

Definition list_projects (status : option string) (limit : option Z) : M (list dict) :=
  limit <- Query 100 500 limit ;;
  let filt := match given_str status with
              | Some s => And [eq_str "status" s]
              | None => And []
              end in
  docs <- get_documents project filt limit ;;
  docs <- for_each (fun d =>
            id <- item d "_id" ;;
            let d := Dict.set d "_id" (VStr (py_str id)) in
            pid <- item d "_id" ;;
            attach_counts pid d) docs ;;
  ret (map serialize_dict docs).

Definition by_id (s : string) : query := Field "_id" (CEq (VOid (Oid.of_str s))).

Definition create_project (p : Project.t) (oid : ObjectId) (now : datetime)
  : M (option dict) :=
  inserted_id <- create_document project p oid now ;;
  doc <- find_one project (by_id inserted_id) ;;
  ret (serialize_doc doc).

Definition is_falsy_doc (doc : option dict) : bool :=
  match doc with
  | Some d => Dict.is_empty d
  | None => true
  end.

Definition get_project (project_id : string) : M dict :=
  if negb (Oid.is_valid project_id) then raise (HTTPException 400 "Invalid project id")
  else
    doc <- find_one project (by_id project_id) ;;
    match doc with
    | None => raise (HTTPException 404 "Project not found")
    | Some d =>
        if Dict.is_empty d then raise (HTTPException 404 "Project not found")
        else attach_counts (VStr project_id) (serialize_dict d)
    end.

(** *** Tasks *)

Definition list_tasks (project_id status : option string) (limit : option Z)
  : M (list dict) :=
  limit <- Query 200 1000 limit ;;
  let filt := [] in
  let filt := match given_str project_id with
              | Some s => (filt ++ [eq_str "project_id" s])%list
              | None => filt
              end in
  let filt := match given_str status with
              | Some s => (filt ++ [eq_str "status" s])%list
              | None => filt
              end in
  docs <- get_documents task (And filt) limit ;;
  ret (map serialize_dict docs).

Definition create_task (t : Task.t) (oid : ObjectId) (now : datetime)
  : M (option dict) :=
  if negb (Oid.is_valid (Task.project_id t))
  then raise (HTTPException 400 "Invalid project id")
  else
    found <- find_one project (by_id (Task.project_id t)) ;;
    if is_falsy_doc found then raise (HTTPException 404 "Project not found")
    else
      inserted_id <- create_document task t oid now ;;
      doc <- find_one task (by_id inserted_id) ;;
      ret (serialize_doc doc).

(** *** Notes *)

Definition list_notes (project_id : option string) (limit : option Z) : M (list dict) :=
  limit <- Query 200 1000 limit ;;
  let filt := match given_str project_id with
              | Some s => And [eq_str "project_id" s]
              | None => And []
              end in
  docs <- get_documents note filt limit ;;
  ret (map serialize_dict docs).

Definition create_note (n : Note.t) (oid : ObjectId) (now : datetime)
  : M (option dict) :=
  if negb (Oid.is_valid (Note.project_id n))
  then raise (HTTPException 400 "Invalid project id")
  else
    found <- find_one project (by_id (Note.project_id n)) ;;
    if is_falsy_doc found then raise (HTTPException 404 "Project not found")
    else
      inserted_id <- create_document note n oid now ;;
      doc <- find_one note (by_id inserted_id) ;;
      ret (serialize_doc doc).

(** *** Chat over the project data *)

Record ChatRequest := mk_request { message : string }.

Record ChatResponse := mk_response {
  reply : string;
  related_projects : list dict
}.

(** Line 186: [(payload.message or "").strip().lower()] *)
Definition normalize (payload : ChatRequest) : string :=
  str_lower (Py.strip (message payload)).

Definition project_filter (q : string) : query :=
  Or [Field "name" (CRegex q);
      Field "description" (CRegex q);
      Field "tags" (CElemMatchRegex q)].

Definition task_filter (q : string) : query :=
  Or [Field "title" (CRegex q); Field "description" (CRegex q)].

Definition note_filter (q : string) : query := Field "content" (CRegex q).

(** Lines 210 to 217, one turn of the loop over [extra_proj_ids]. *)
Definition fetch_extra (proj_matches : list dict) (pid : string) : M (list dict) :=
  try_except
    (if Oid.is_valid pid then
       doc <- find_one project (by_id pid) ;;
       if is_falsy_doc doc then ret proj_matches
       else match doc with
            | Some d => ret (proj_matches ++ [d])%list
            | None => ret proj_matches
            end
     else ret proj_matches)
    (ret proj_matches).

(** Lines 191 to 217: the direct matches, then the projects of the
    matching tasks and notes. *)
Definition collect_matches (q : string) : M (list dict) :=
  found <- find project (project_filter q) ;;
  let proj_matches := cursor_limit 10 found in
  task_proj_ids <- distinct task "project_id" (task_filter q) ;;
  note_proj_ids <- distinct note "project_id" (note_filter q) ;;
  let extra_proj_ids := set_iter (task_proj_ids ++ note_proj_ids)%list in
  for_fold fetch_extra proj_matches extra_proj_ids.

(** [str(p.get("_id"))] *)
Definition id_text (p : dict) : string :=
  match Dict.get p "_id" with
  | Some v => py_str v
  | None => "None"
  end.

Definition mem (s : string) (seen : list string) : bool :=
  existsb (String.eqb s) seen.

(** Lines 222 to 226, one turn of the loop. *)
Definition dedupe_step (st : list string * list dict) (p : dict)
  : list string * list dict :=
  let '(seen, unique) := st in
  let pid := id_text p in
  if negb (mem pid seen) then (pid :: seen, (unique ++ [p])%list) else st.

(** Lines 220 to 226. *)
Definition deduplicate (proj_matches : list dict) : list dict :=
  snd (fold_left dedupe_step proj_matches ([], [])).

Definition open_tasks_filter (pid : value) : query :=
  And [Field "project_id" (CEq pid);
       Field "status" (CIn [VStr "open"; VStr "in-progress"])].

Definition as_docs (l : list dict) : value := VList (map VDict l).

(** Lines 230 to 236, one turn of the loop over [unique[:10]]. *)
Definition enrich (p : dict) : M dict :=
  let sp := serialize_dict p in
  pid <- item sp "_id" ;;
  found <- find task (open_tasks_filter pid) ;;
  let open_tasks := cursor_limit 5 found in
  let sp := Dict.set sp "open_tasks" (as_docs (map serialize_dict open_tasks)) in
  found <- find note (And [Field "project_id" (CEq pid)]) ;;
  let notes := cursor_limit 3 (cursor_sort_desc "created_at" found) in
  let sp := Dict.set sp "recent_notes" (as_docs (map serialize_dict notes)) in
  ret sp.

(** [p.get("name", "Unnamed")] as an operand of [join]. *)
Definition name_or_unnamed (p : dict) : M string :=
  match Dict.get p "name" with
  | None => ret "Unnamed"
  | Some (VStr s) => ret s
  | Some _ => raise TypeError
  end.

Definition prompt_reply : string :=
  "Ask me anything about your projects, tasks, or notes.".

Definition nothing_found_reply : string :=
  "I couldn't find anything related. Try different keywords like a project name, tag, or status.".

(** Lines 238 to 244. *)
Definition compose (related : list dict) : M ChatResponse :=
  match related with
  | [] => ret (mk_response nothing_found_reply [])
  | _ =>
      names <- for_each name_or_unnamed (firstn 5 related) ;;
      let names := Py.join ", " names in
      let reply :=
        "I found " ++ Py.str_nat (List.length related) ++ " related project(s): "
        ++ names ++ ". I included a few open tasks and recent notes for context." in
      ret (mk_response reply related)
  end.

Definition chat_with_projects (payload : ChatRequest) : M ChatResponse :=
  let q := normalize payload in
  if q =? "" then ret (mk_response prompt_reply [])
  else
    proj_matches <- collect_matches q ;;
    let unique := deduplicate proj_matches in
    related <- for_each enrich (firstn 10 unique) ;;
    compose related.

End Handlers.

(* ================================================================== *)
(** ** A regular expression engine for plain text and the wildcard *)

Module Regex.

Inductive atom :=
| Lit (a : ascii)     (* an ordinary character, compared ignoring case *)
| AnyChar.            (* [.]: any character but a line feed *)

(** The characters with a special meaning in a pattern, [.] apart. *)
Definition is_special (a : ascii) : bool :=
  existsb (Ascii.eqb a) (Py.chars "\^$|?*+()[]{}").

(** Patterns of ordinary characters and [.].  A pattern with any other
    special character is outside this engine: [parse] gives [None] for it,
    as for a pattern that the store rejects. *)
Fixpoint parse (pat : list ascii) : option (list atom) :=
  match pat with
  | [] => Some []
  | a :: pat' =>
      if is_special a then None
      else match parse pat' with
           | Some r => Some ((if Ascii.eqb a "." then AnyChar else Lit a) :: r)
           | None => None
           end
  end.

Definition atom_match (x : atom) (c : ascii) : bool :=
  match x with
  | Lit a => Ascii.eqb (Py.lower_ascii a) (Py.lower_ascii c)
  | AnyChar => negb (Py.code c =? 10)%nat
  end.

Fixpoint match_here (r : list atom) (s : list ascii) : bool :=
  match r, s with
  | [], _ => true
  | x :: r', c :: s' => atom_match x c && match_here r' s'
  | _ :: _, [] => false
  end.

Fixpoint match_anywhere (r : list atom) (s : list ascii) : bool :=
  match_here r s ||
  match s with
  | [] => false
  | _ :: s' => match_anywhere r s'
  end.

(** A pattern with no character that is special. *)
Definition plain (q : string) : bool :=
  forallb (fun a => negb (is_special a) && negb (Ascii.eqb a ".")) (Py.chars q).

(** [{"$regex": pat, "$options": "i"}] on a text. *)
Definition search (pat : string) : option (string -> bool) :=
  match parse (Py.chars pat) with
  | Some r => Some (fun s => match_anywhere r (Py.chars s))
  | None => None
  end.

End Regex.

(** Case-insensitive substring containment, as the specification words the
    matching: [q] occurs in [s] at some offset, letter case ignored. *)
Module Substring.

Definition same_letter (a c : ascii) : bool :=
  Ascii.eqb (Py.lower_ascii a) (Py.lower_ascii c).

Fixpoint prefix_ci (q s : list ascii) : bool :=
  match q, s with
  | [], _ => true
  | a :: q', c :: s' => same_letter a c && prefix_ci q' s'
  | _ :: _, [] => false
  end.

Fixpoint occurs_ci (q s : list ascii) : bool :=
  prefix_ci q s ||
  match s with
  | [] => false
  | _ :: s' => occurs_ci q s'
  end.

Definition contains_ci (q s : string) : bool :=
  occurs_ci (Py.chars q) (Py.chars s).

End Substring.

(* ================================================================== *)
(** ** The handlers' results in terms of the stored models

    What each query of [main.py] selects, stated on the typed collections.
    The properties below relate the handlers to these functions. *)

Section Reading.

Context {P : Platform}.

Variable db : Database.

(** The project with a given identifier, if any. *)
Definition lookup_project (o : ObjectId) : option (Stored Project.t) :=
  List.find (fun p => Oid.eqb (_id p) o) (projects db).

(** Tasks and notes whose [project_id] is the text [pid]. *)
Definition tasks_with (pid status : string) : list (Stored Task.t) :=
  filter (fun t => (Task.project_id (fields t) =? pid)
                   && (Task.status (fields t) =? status)) (tasks db).

Definition notes_of (pid : string) : list (Stored Note.t) :=
  filter (fun n => Note.project_id (fields n) =? pid) (notes db).

Definition is_open (t : Stored Task.t) : bool :=
  (Task.status (fields t) =? "open") || (Task.status (fields t) =? "in-progress").

Definition open_tasks_of (pid : string) : list (Stored Task.t) :=
  firstn 5 (filter (fun t => (Task.project_id (fields t) =? pid) && is_open t) (tasks db)).

Definition recent_notes_of (pid : string) : list (Stored Note.t) :=
  firstn 3 (sort_desc (fun n => Some (created_at n)) (notes_of pid)).

(** The counts attached by [get_project] and [list_projects]. *)
Definition with_counts (pid : string) (d : dict) : dict :=
  let count s := VInt (Z.of_nat (List.length (tasks_with pid s))) in
  Dict.set
    (Dict.set d "task_counts"
       (VDict [("open", count "open"); ("in_progress", count "in-progress");
               ("done", count "done")]))
    "notes_count" (VInt (Z.of_nat (List.length (notes_of pid)))).

(** One entry of the answer of [list_projects]. *)
Definition listed_project (p : Stored Project.t) : dict :=
  let pid := Oid.str (_id p) in
  serialize_dict (with_counts pid (Dict.set (project_dict p) "_id" (VStr pid))).

(** One entry of [related_projects]. *)
Definition related_entry (p : Stored Project.t) : dict :=
  let pid := Oid.str (_id p) in
  Dict.set
    (Dict.set (serialize_dict (project_dict p)) "open_tasks"
       (as_docs (map serialize_dict (map task_dict (open_tasks_of pid)))))
    "recent_notes"
    (as_docs (map serialize_dict (map note_dict (recent_notes_of pid)))).

(** The three searches of the chat, for a compiled pattern [m]. *)
Variable m : string -> bool.

Definition project_hit (p : Stored Project.t) : bool :=
  m (Project.name (fields p))
  || match Project.description (fields p) with Some s => m s | None => false end
  || existsb m (Project.tags (fields p)).

Definition task_hit (t : Stored Task.t) : bool :=
  m (Task.title (fields t))
  || match Task.description (fields t) with Some s => m s | None => false end.

Definition note_hit (n : Stored Note.t) : bool := m (Note.content (fields n)).

Definition direct_matches : list (Stored Project.t) :=
  firstn 10 (filter project_hit (projects db)).

Definition task_project_ids : list string :=
  nodup string_dec (map (fun t => Task.project_id (fields t)) (filter task_hit (tasks db))).

Definition note_project_ids : list string :=
  nodup string_dec (map (fun n => Note.project_id (fields n)) (filter note_hit (notes db))).

(** The project an identifier text leads to: none when the text is
    malformed or no project has it. *)
Definition resolve (pid : string) : list (Stored Project.t) :=
  if Oid.is_valid pid
  then match lookup_project (Oid.of_str pid) with Some p => [p] | None => [] end
  else [].

Definition extra_matches : list (Stored Project.t) :=
  flat_map resolve (set_iter (task_project_ids ++ note_project_ids)%list).

Definition merged : list (Stored Project.t) := (direct_matches ++ extra_matches)%list.

End Reading.

(** The first occurrence of every key, in order. *)
Fixpoint keep_first {A : Type} (key : A -> string) (seen : list string) (l : list A)
  : list A :=
  match l with
  | [] => []
  | x :: l' =>
      if mem (key x) seen then keep_first key seen l'
      else x :: keep_first key (key x :: seen) l'
  end.

Definition project_key (p : Stored Project.t) : string := Oid.str (_id p).

(** The order the specification words: the direct matches, then the
    projects of the matching tasks, then those of the matching notes. *)
Definition merged_as_specified (db : Database) (m : string -> bool)
  : list (Stored Project.t) :=
  (filter (project_hit m) (projects db)
   ++ flat_map (resolve db) (task_project_ids db m)
   ++ flat_map (resolve db) (note_project_ids db m))%list.


(** Notes in the order of [recent_notes]: never an earlier note before a
    later one. *)
Definition newest_first (a b : Stored Note.t) : Prop :=
  Datetime.leb (created_at b) (created_at a) = true.

(** The projects the chat shows and its answer, for a compiled pattern. *)
Section Answer.

Context {P : Platform}.

Variable db : Database.
Variable m : string -> bool.

Definition shown_projects : list (Stored Project.t) :=
  firstn 10 (keep_first project_key [] (merged db m)).

Definition found_reply (n : nat) (names : list string) : string :=
  "I found " ++ Py.str_nat n ++ " related project(s): "
  ++ Py.join ", " names ++ ". I included a few open tasks and recent notes for context.".

Definition answer : ChatResponse :=
  match shown_projects with
  | [] => mk_response nothing_found_reply []
  | _ =>
      mk_response
        (found_reply (List.length shown_projects)
                     (map (fun p => Project.name (fields p)) (firstn 5 shown_projects)))
        (map (related_entry db) shown_projects)
  end.

End Answer.

(** The tests that the filters of [main.py] compile to. *)
Module Compiled.

Definition by_project (pid : string) (d : dict) : bool :=
  eq_match (VStr pid) (Dict.get d "project_id") && true.

Definition by_project_status (pid status : string) (d : dict) : bool :=
  eq_match (VStr pid) (Dict.get d "project_id")
  && (eq_match (VStr status) (Dict.get d "status") && true).

Definition by_project_open (pid : string) (d : dict) : bool :=
  eq_match (VStr pid) (Dict.get d "project_id")
  && (existsb (fun v => eq_match v (Dict.get d "status")) [VStr "open"; VStr "in-progress"]
      && true).

Definition project_test (m : string -> bool) (d : dict) : bool :=
  regex_match m (Dict.get d "name")
  || (regex_match m (Dict.get d "description")
      || (elem_match m (Dict.get d "tags") || false)).

Definition task_test (m : string -> bool) (d : dict) : bool :=
  regex_match m (Dict.get d "title")
  || (regex_match m (Dict.get d "description") || false).

Definition note_test (m : string -> bool) (d : dict) : bool :=
  regex_match m (Dict.get d "content").

End Compiled.
Import Compiled.

(* ================================================================== *)
(** ** Two platforms

    Both use the engine [Regex.search] and lower the letters A to Z, which
    is [str.lower] on ASCII text; the first iterates a set in the order of
    first insertion, the second in the reverse of it. *)

Definition first_insertion (l : list string) : list string :=
  keep_first (fun s => s) [] l.

Definition insertion_order : Platform :=
  {| set_iter := first_insertion; regex_search := Regex.search;
     str_lower := Py.lower |}.

Definition reverse_order : Platform :=
  {| set_iter := fun l => rev (first_insertion l); regex_search := Regex.search;
     str_lower := Py.lower |}.

(* ================================================================== *)
(** ** Predicates on handlers *)

(** [returns db mx a]: on the store [db] the computation [mx] succeeds with
    [a], leaves the store as it was and only adds calls to the record. *)
Definition returns (db : Database) {A} (mx : M A) (a : A) : Prop :=
  forall w, store w = db ->
  exists cs, mx w = (Ok a, mk_world db (calls w ++ cs)%list).

(** What a served list request was limited by. *)
Definition effective_limit (default cap : Z) (given : option Z) (l : Z) : Prop :=
  match given with
  | Some v => l = v /\ (v <= cap)%Z
  | None => l = default
  end.

(* ================================================================== *)
(** ** Sample stores *)

Module Sample.

Definition t0 : datetime := mk_datetime 2024 1 2 3 4 5 0.
Definition t1 : datetime := mk_datetime 2024 1 3 9 0 0 0.
Definition t2 : datetime := mk_datetime 2024 2 1 0 0 0 250.

Definition pA : string := "aaaaaaaaaaaaaaaaaaaaaaaa".
Definition pB : string := "bbbbbbbbbbbbbbbbbbbbbbbb".
Definition pA_upper : string := "AAAAAAAAAAAAAAAAAAAAAAAA".

Definition new_project (name : string) (tags : list string) : Project.t :=
  Project.mk name None "planned" None None None 0 None tags.

Definition new_task (pid title status : string) : Task.t :=
  Task.mk pid title None status None None None.

(** The scenario of the specification: one project tagged "urgent", an
    open and a done task, one note. *)
Definition db_site : Database :=
  mk_db
    [mk_stored (mk_oid pA) (new_project "Website Redesign" ["urgent"]) t0]
    [mk_stored (mk_oid "111111111111111111111111") (new_task pA "Fix CSS" "open") t0;
     mk_stored (mk_oid "111111111111111111111112") (new_task pA "Deploy" "done") t1]
    [mk_stored (mk_oid "222222222222222222222221") (Note.mk pA None "urgent fix needed") t1].

(** Two projects: the first is reached through a task, the second through
    a note. *)
Definition db_two : Database :=
  mk_db
    [mk_stored (mk_oid pA) (new_project "Website Redesign" ["urgent"]) t0;
     mk_stored (mk_oid pB) (new_project "Mobile App" []) t0]
    [mk_stored (mk_oid "111111111111111111111111") (new_task pA "Fix CSS" "open") t0]
    [mk_stored (mk_oid "222222222222222222222221") (Note.mk pB None "css colours") t1;
     mk_stored (mk_oid "222222222222222222222222") (Note.mk pB (Some "ann") "kick-off") t2].

(** Eleven projects named "alpha" and tagged "urgent"; the eleventh has an
    open task "alpha fix". *)
Definition eleven_ids : list string :=
  map (fun c => "00000000000000000000000" ++ String c "") (Py.chars "0123456789a").

Definition last_id : string := "00000000000000000000000a".

Definition db_eleven : Database :=
  mk_db
    (map (fun i => mk_stored (mk_oid i) (new_project "alpha" ["urgent"]) t0) eleven_ids)
    [mk_stored (mk_oid "111111111111111111111111") (new_task last_id "alpha fix" "open") t1]
    [].

Definition eleventh : Stored Project.t :=
  mk_stored (mk_oid last_id) (new_project "alpha" ["urgent"]) t0.

Definition site_project : Stored Project.t :=
  mk_stored (mk_oid pA) (new_project "Website Redesign" ["urgent"]) t0.

Definition planned_task : Task.t := new_task pA "Plan" "open".

Definition w_site : World := mk_world db_site [].
Definition w_two : World := mk_world db_two [].
Definition missing_id : string := "cccccccccccccccccccccccc".

(** Eight pairs of digits, a space after each: 24 characters. *)
Definition spaced_id : string := "aa aa aa aa aa aa aa aa ".

Definition stored_note : dict :=
  note_dict (mk_stored (mk_oid "222222222222222222222222")
                       (Note.mk pB (Some "ann") "kick-off") t2).

(** The values under [k] in the documents of a list-valued field. *)
Definition texts_under (k : string) (v : option value) : list (option value) :=
  match v with
  | Some (VList l) =>
      map (fun x => match x with VDict d => Dict.get d k | _ => None end) l
  | _ => []
  end.

(** One chat request on a store with an empty record of calls. *)
Definition chat_on (P : Platform) (db : Database) (text : string)
  : result ChatResponse * World :=
  @chat_with_projects P (mk_request text) (mk_world db []).

End Sample.

(* ================================================================== *)
(** ** The helpers and the self-check endpoint of [main.py] *)

Module PyObjectId.

(** The outcome of [PyObjectId.validate]: the identifier, or the
    [ValueError] it raises. *)
Inductive outcome :=
| Valid (o : ObjectId)
| ValueError (msg : string).

(** Lines 32 to 37. *)
Definition validate (v : value) : outcome :=
  match v with
  | VOid o => Valid o
  | VStr s => if Oid.is_valid s then Valid (Oid.of_str s)
              else ValueError "Invalid ObjectId"
  | _ => ValueError "Invalid ObjectId"
  end.

End PyObjectId.

(** *** The characters of a text *)

(** A character: a byte and continuation bytes. *)
Definition group (g : string) : Prop :=
  match g with
  | EmptyString => False
  | String _ t => forallb Py.is_cont (Py.chars t) = true
  end.

(** A character that does not begin with a continuation byte. *)
Definition starts (g : string) : Prop :=
  match g with
  | EmptyString => False
  | String a _ => Py.is_cont a = false
  end.

Inductive segmented : list string -> Prop :=
| seg_nil : segmented []
| seg_one g : group g -> segmented [g]
| seg_cons g g' gs :
    group g -> starts g' -> segmented (g' :: gs) -> segmented (g :: g' :: gs).

(** The characters of a text that [bytes.fromhex] does not skip. *)
Definition digits (s : string) : string :=
  Py.text (filter (fun a => negb (Oid.is_blank a)) (Py.chars s)).

(** An identifier as the store assigns it: 24 hexadecimal digits, in the
    lower case that [str] prints. *)
Definition canonical (o : ObjectId) : Prop :=
  Oid.is_valid (Oid.str o) = true /\ Oid.of_str (Oid.str o) = o.

Module SelfCheck.

(** What [test_database] reads from its surroundings: the database handle
    of the module [database] ([None] when it is not initialised) and the
    environment variable [DATABASE_URL]. *)
Record handle := mk_handle {
  handle_name : option string;                 (* [db.name], when [hasattr(db, "name")] *)
  list_collection_names : list string + string (* the names, or the text of the exception *)
}.

Record surroundings := mk_surroundings {
  db_handle : option handle;
  database_url : option string
}.

Definition initial_response : dict :=
  [ ("backend", VStr "✅ Running");
    ("database", VStr "❌ Not Available");
    ("database_url", VNone);
    ("database_name", VNone);
    ("connection_status", VStr "Not Connected");
    ("collections", VList []) ].

(** Lines 60 to 84.  Nothing in the outer [try] raises here, so its
    handler has no case. *)
Definition test_database (env : surroundings) : dict :=
  let response := initial_response in
  match db_handle env with
  | Some db =>
      let response := Dict.set response "database" (VStr "✅ Available") in
      let response :=
        Dict.set response "database_url"
                 (VStr (match given_str (database_url env) with
                        | Some _ => "✅ Set"
                        | None => "❌ Not Set"
                        end)) in
      let response :=
        Dict.set response "database_name"
                 (VStr (match handle_name db with
                        | Some n => n
                        | None => "Unknown"
                        end)) in
      let response := Dict.set response "connection_status" (VStr "Connected") in
      match list_collection_names db with
      | inl names =>
          let response :=
            Dict.set response "collections" (VList (map VStr (firstn 10 names))) in
          Dict.set response "database" (VStr "✅ Connected & Working")
      | inr e =>
          Dict.set response "database"
                   (VStr ("⚠️ Connected but Error: " ++ Py.slice_to 50 e))
      end
  | None =>
      Dict.set response "database" (VStr "⚠️ Available but not initialized")
  end.

(** Line 56. *)
Definition read_root : dict :=
  [("message", VStr "Project Management Backend is running")].

End SelfCheck.

(* ================================================================== *)
(** ** More readings of the handlers *)

(** [preserves mx]: whatever [mx] returns, the store is as it was. *)
Definition preserves {A} (mx : M A) : Prop :=
  forall w, store (snd (mx w)) = store w.

(** [performs db mx a cs]: on the store [db] the computation [mx] succeeds
    with [a], leaves the store as it was and makes exactly the calls [cs]. *)
Definition performs (db : Database) {A} (mx : M A) (a : A) (cs : list Call) : Prop :=
  forall w, store w = db ->
  mx w = (Ok a, mk_world db (calls w ++ cs)%list).

(** The name that the reply shows for a related project. *)
Definition display_name (e : dict) : string :=
  match Dict.get e "name" with
  | Some (VStr s) => s
  | _ => "Unnamed"
  end.

(** A name that [join] accepts: absent, or text. *)
Definition name_is_text (e : dict) : bool :=
  match Dict.get e "name" with
  | None | Some (VStr _) => true
  | Some _ => false
  end.

(** The status test of [list_projects] and the tests of [list_tasks] and
    [list_notes], on the stored models. *)
Definition status_is (status : option string) (p : Stored Project.t) : bool :=
  match given_str status with
  | Some s => Project.status (fields p) =? s
  | None => true
  end.

Definition task_selected (project_id status : option string) (t : Stored Task.t) : bool :=
  match given_str project_id with
  | Some s => Task.project_id (fields t) =? s
  | None => true
  end
  && match given_str status with
     | Some s => Task.status (fields t) =? s
     | None => true
     end.

Definition note_selected (project_id : option string) (n : Stored Note.t) : bool :=
  match given_str project_id with
  | Some s => Note.project_id (fields n) =? s
  | None => true
  end.

(** The store calls that count the tasks and notes of one project. *)
Definition count_calls (pid : string) : list Call :=
  let by_status s :=
    call_count_documents task (And [Field "project_id" (CEq (VStr pid)); eq_str "status" s]) in
  [ by_status "open"; by_status "in-progress"; by_status "done";
    call_count_documents note (And [Field "project_id" (CEq (VStr pid))]) ].

(** All open tasks and all notes of a project, in store order. *)
Definition all_open_tasks (db : Database) (pid : string) : list (Stored Task.t) :=
  filter (fun t => (Task.project_id (fields t) =? pid) && is_open t) (tasks db).

(** [not_later a b]: the note [a] was not created after [b]. *)
Definition not_later (a b : Stored Note.t) : Prop :=
  Datetime.leb (created_at a) (created_at b) = true.

(* ================================================================== *)
(** * Properties *)

(** ** Dictionaries *)

Module DictFacts.

Lemma get_set_same (d : dict) (k : string) (v : value) :
  Dict.get (Dict.set d k v) k = Some v.
Proof.
  induction d as [|[k' v'] d IH]; simpl.
  - now rewrite String.eqb_refl.
  - destruct (String.eqb k k') eqn:E; simpl.
    + now rewrite String.eqb_refl.
    + now rewrite E.
Qed.

Lemma get_set_other (d : dict) (k k' : string) (v : value) :
  k' <> k -> Dict.get (Dict.set d k v) k' = Dict.get d k'.
Proof.
  intros Hne. induction d as [|[k0 v0] d IH]; simpl.
  - destruct (String.eqb k' k) eqn:E; [apply String.eqb_eq in E; contradiction | reflexivity].
  - destruct (String.eqb k k0) eqn:E; simpl.
    + apply String.eqb_eq in E; subst k0.
      destruct (String.eqb k' k) eqn:E'; [apply String.eqb_eq in E'; contradiction | reflexivity].
    + destruct (String.eqb k' k0); [reflexivity | exact IH].
Qed.

Lemma get_map_values (f : value -> value) (d : dict) (k : string) :
  Dict.get (Dict.map_values f d) k = option_map f (Dict.get d k).
Proof.
  induction d as [|[k' v'] d IH]; simpl; [reflexivity|].
  destruct (String.eqb k k'); [reflexivity | exact IH].
Qed.

Lemma keys_set_present (d : dict) (k : string) (v v' : value) :
  Dict.get d k = Some v' -> map fst (Dict.set d k v) = map fst d.
Proof.
  induction d as [|[k0 v0] d IH]; simpl; [discriminate|].
  destruct (String.eqb k k0) eqn:E; simpl.
  - intros _. apply String.eqb_eq in E. now subst.
  - intros H. now rewrite IH.
Qed.

Lemma keys_map_values (f : value -> value) (d : dict) :
  map fst (Dict.map_values f d) = map fst d.
Proof.
  unfold Dict.map_values. rewrite map_map. reflexivity.
Qed.

End DictFacts.

(** ** Serialization *)

Lemma serialize_doc_some (d : dict) :
  serialize_doc (Some d) = Some (serialize_dict d).
Proof.
  destruct d; reflexivity.
Qed.

Lemma serialize_dict_keys (d : dict) :
  map fst (serialize_dict d) = map fst d.
Proof.
  unfold serialize_dict. rewrite DictFacts.keys_map_values.
  destruct (Dict.get d "_id") as [v|] eqn:E; [|reflexivity].
  destruct (truthy v); [|reflexivity].
  eapply DictFacts.keys_set_present; eauto.
Qed.

Lemma serialize_dict_id (d : dict) (v : value) :
  Dict.get d "_id" = Some v -> truthy v = true ->
  Dict.get (serialize_dict d) "_id" = Some (VStr (py_str v)).
Proof.
  intros Hid Ht. unfold serialize_dict.
  rewrite Hid, Ht, DictFacts.get_map_values, DictFacts.get_set_same. reflexivity.
Qed.

Lemma serialize_dict_other (d : dict) (k : string) :
  k <> "_id" ->
  Dict.get (serialize_dict d) k = option_map iso_value (Dict.get d k).
Proof.
  intros Hk. unfold serialize_dict. rewrite DictFacts.get_map_values.
  destruct (Dict.get d "_id") as [v|]; [|reflexivity].
  destruct (truthy v); [|reflexivity].
  now rewrite DictFacts.get_set_other.
Qed.

(** C8. [serialize_doc] leaves an absent or empty document as it is; on any
    other document it keeps the keys and their order, renders the identifier
    under [_id] (an [ObjectId], or any value that counts as true) as its
    text, renders every timestamp-valued field as its ISO-8601 text, and
    passes every other field through unchanged. *)
Theorem serialize_doc_contract :
  serialize_doc None = None /\
  serialize_doc (Some []) = Some [] /\
  forall d : dict,
  exists d' : dict,
    serialize_doc (Some d) = Some d' /\
    map fst d' = map fst d /\
    (forall o, Dict.get d "_id" = Some (VOid o) ->
               Dict.get d' "_id" = Some (VStr (Oid.str o))) /\
    (forall v, Dict.get d "_id" = Some v -> truthy v = true ->
               Dict.get d' "_id" = Some (VStr (py_str v))) /\
    (forall k t, k <> "_id" -> Dict.get d k = Some (VDatetime t) ->
                 Dict.get d' k = Some (VStr (Datetime.isoformat t))) /\
    (forall k v, k <> "_id" -> (forall t, v <> VDatetime t) ->
                 Dict.get d k = Some v -> Dict.get d' k = Some v) /\
    (forall k, Dict.get d k = None -> Dict.get d' k = None).
Proof.
  split; [reflexivity|]. split; [reflexivity|].
  intros d. exists (serialize_dict d).
  split; [apply serialize_doc_some|].
  split; [apply serialize_dict_keys|].
  split; [|split; [|split; [|split]]].
  - intros o Hid. now apply (serialize_dict_id d Hid).
  - intros v Hid Ht. now apply serialize_dict_id.
  - intros k t Hk Hget. rewrite serialize_dict_other, Hget by assumption. reflexivity.
  - intros k v Hk Hv Hget. rewrite serialize_dict_other, Hget by assumption.
    destruct v; try reflexivity. now elim (Hv t).
  - intros k Hget. destruct (String.eqb k "_id") eqn:E.
    + apply String.eqb_eq in E; subst k. unfold serialize_dict.
      rewrite Hget, DictFacts.get_map_values, Hget. reflexivity.
    + apply String.eqb_neq in E. rewrite serialize_dict_other, Hget by assumption.
      reflexivity.
Qed.

(* ================================================================== *)
(** ** Reasoning about handlers *)

Module Returns.

Lemma ret_ db {A} (a : A) : returns db (ret a) a.
Proof.
  intros [db' cs] E. simpl in E. subst db'. exists []. unfold ret. simpl.
  now rewrite app_nil_r.
Qed.

Lemma bind_ db {A B} (mx : M A) (k : A -> M B) a b :
  returns db mx a -> returns db (k a) b -> returns db (bind mx k) b.
Proof.
  intros Hm Hk w E. destruct (Hm w E) as [cs1 E1].
  destruct (Hk (mk_world db (calls w ++ cs1)%list) eq_refl) as [cs2 E2].
  exists (cs1 ++ cs2)%list. unfold bind. rewrite E1, E2. simpl.
  now rewrite app_assoc.
Qed.

Lemma try_ db {A} (mx h : M A) a : returns db mx a -> returns db (try_except mx h) a.
Proof.
  intros H w E. destruct (H w E) as [cs E1]. exists cs. unfold try_except.
  now rewrite E1.
Qed.

Lemma for_each_ db {A B} (f : A -> M B) (g : A -> B) (l : list A) :
  (forall x, In x l -> returns db (f x) (g x)) ->
  returns db (for_each f l) (map g l).
Proof.
  induction l as [|x l IH]; intros Hf; simpl.
  - apply ret_.
  - eapply bind_; [apply Hf; now left|].
    eapply bind_; [apply IH; intros y Hy; apply Hf; now right|].
    apply ret_.
Qed.

Lemma for_fold_ db {A S} (f : S -> A -> M S) (g : S -> A -> S) (l : list A) :
  (forall s x, returns db (f s x) (g s x)) ->
  forall s, returns db (for_fold f s l) (fold_left g l s).
Proof.
  intros Hf. induction l as [|x l IH]; intros s; simpl.
  - apply ret_.
  - eapply bind_; [apply Hf | apply IH].
Qed.

Lemma for_each_map {A B C} (f : B -> M C) (h : A -> B) (l : list A) :
  for_each f (map h l) = for_each (fun x => f (h x)) l.
Proof.
  induction l as [|x l IH]; simpl; [reflexivity|]. now rewrite IH.
Qed.

(** What a run returned, and that it left the store alone. *)
Lemma result_of {A} (mx : M A) w a r w' :
  returns (store w) mx a -> mx w = (r, w') ->
  r = Ok a /\ store w' = store w /\ exists cs, calls w' = (calls w ++ cs)%list.
Proof.
  intros H E. destruct (H w eq_refl) as [cs Hw]. rewrite Hw in E.
  inversion E; subst. simpl. repeat split. now exists cs.
Qed.

End Returns.

Section StoreFacts.

Context {P : Platform}.

Ltac run_store Hc :=
  unfold find, find_one, count_documents, distinct, get_documents, run_filter,
    bind, record, read_store, ret;
  simpl; rewrite Hc; reflexivity.

Lemma returns_find db c q p :
  compile q = Some p ->
  returns db (find c q) (filter p (docs db c)).
Proof. intros Hc w <-. exists [call_find c q]. run_store Hc. Qed.

Lemma returns_find_one db c q p :
  compile q = Some p ->
  returns db (find_one c q) (hd_error (filter p (docs db c))).
Proof. intros Hc w <-. exists [call_find_one c q]. run_store Hc. Qed.

Lemma returns_count_documents db c q p :
  compile q = Some p ->
  returns db (count_documents c q) (Z.of_nat (List.length (filter p (docs db c)))).
Proof. intros Hc w <-. exists [call_count_documents c q]. run_store Hc. Qed.

Lemma returns_distinct db c key q p :
  compile q = Some p ->
  returns db (distinct c key q)
          (nodup string_dec (flat_map (field_strings key) (filter p (docs db c)))).
Proof. intros Hc w <-. exists [call_distinct c key q]. run_store Hc. Qed.

Lemma returns_get_documents db c q limit p :
  compile q = Some p ->
  returns db (get_documents c q limit)
          (firstn (Z.to_nat limit) (filter p (docs db c))).
Proof. intros Hc w <-. exists [call_get_documents c q limit]. run_store Hc. Qed.

End StoreFacts.

(* ================================================================== *)
(** ** Queries on the dictionary view and on the models *)

Section ViewFacts.

Lemma hd_error_map {A B} (f : A -> B) (l : list A) :
  hd_error (map f l) = option_map f (hd_error l).
Proof. destruct l; reflexivity. Qed.

Lemma hd_error_filter {A} (f : A -> bool) (l : list A) :
  hd_error (filter f l) = List.find f l.
Proof.
  induction l as [|x l IH]; simpl; [reflexivity|]. destruct (f x); [reflexivity | exact IH].
Qed.

Lemma existsb_str_match (m : string -> bool) (l : list string) :
  existsb (str_match m) (map VStr l) = existsb m l.
Proof.
  induction l as [|x l IH]; simpl; [reflexivity|]. now rewrite IH.
Qed.

Lemma select_map {A} (view : A -> dict) (p : dict -> bool) (p' : A -> bool) (l : list A) :
  (forall x, p (view x) = p' x) ->
  filter p (map view l) = map view (filter p' l).
Proof.
  intros E. rewrite filter_map_swap. f_equal. apply filter_ext. exact E.
Qed.

(** Filters on the identifier. *)
Lemma compile_by_id {P : Platform} (s : string) :
  compile (by_id s) = Some (fun d => eq_match (VOid (Oid.of_str s)) (Dict.get d "_id")).
Proof. reflexivity. Qed.

Lemma by_id_view {A} (dump : A -> dict) (o : ObjectId) (x : Stored A) :
  eq_match (VOid o) (Dict.get (to_dict dump x) "_id") = Oid.eqb (_id x) o.
Proof. reflexivity. Qed.

Lemma task_status_view pid status (t : Stored Task.t) :
  by_project_status pid status (task_dict t)
  = (Task.project_id (fields t) =? pid) && (Task.status (fields t) =? status).
Proof.
  unfold by_project_status. cbn. now rewrite andb_true_r.
Qed.

Lemma task_open_view pid (t : Stored Task.t) :
  by_project_open pid (task_dict t)
  = (Task.project_id (fields t) =? pid) && is_open t.
Proof.
  unfold by_project_open, is_open. cbn. now rewrite orb_false_r, andb_true_r.
Qed.

Lemma note_project_view pid (n : Stored Note.t) :
  by_project pid (note_dict n) = (Note.project_id (fields n) =? pid).
Proof.
  unfold by_project. cbn. now rewrite andb_true_r.
Qed.

Lemma task_ids_view (l : list (Stored Task.t)) :
  flat_map (field_strings "project_id") (map task_dict l)
  = map (fun t => Task.project_id (fields t)) l.
Proof.
  induction l as [|t l IH]; [reflexivity|]. cbn. f_equal. exact IH.
Qed.

Lemma note_ids_view (l : list (Stored Note.t)) :
  flat_map (field_strings "project_id") (map note_dict l)
  = map (fun n => Note.project_id (fields n)) l.
Proof.
  induction l as [|n l IH]; [reflexivity|]. cbn. f_equal. exact IH.
Qed.

Lemma regex_opt_str m (o : option string) :
  regex_match m (Some (opt_str o)) = match o with Some s => m s | None => false end.
Proof. destruct o; reflexivity. Qed.

Lemma project_test_view m (p : Stored Project.t) :
  project_test m (project_dict p) = project_hit m p.
Proof.
  unfold project_test, project_hit.
  change (Dict.get (project_dict p) "name") with (Some (VStr (Project.name (fields p)))).
  change (Dict.get (project_dict p) "description")
    with (Some (opt_str (Project.description (fields p)))).
  change (Dict.get (project_dict p) "tags")
    with (Some (VList (map VStr (Project.tags (fields p))))).
  rewrite regex_opt_str. cbn [regex_match elem_match].
  rewrite existsb_str_match, orb_false_r, orb_assoc. reflexivity.
Qed.

Lemma task_test_view m (t : Stored Task.t) :
  task_test m (task_dict t) = task_hit m t.
Proof.
  unfold task_test, task_hit.
  change (Dict.get (task_dict t) "title") with (Some (VStr (Task.title (fields t)))).
  change (Dict.get (task_dict t) "description")
    with (Some (opt_str (Task.description (fields t)))).
  rewrite regex_opt_str, orb_false_r. reflexivity.
Qed.

Lemma note_test_view m (n : Stored Note.t) :
  note_test m (note_dict n) = note_hit m n.
Proof. reflexivity. Qed.

Lemma sort_key_note (n : Stored Note.t) :
  sort_key "created_at" (note_dict n) = Some (created_at n).
Proof. reflexivity. Qed.

Lemma sort_desc_map {A B} (view : A -> B) (key : B -> option datetime) (l : list A) :
  sort_desc key (map view l) = map view (sort_desc (fun x => key (view x)) l).
Proof.
  unfold sort_desc. induction l as [|x l IH]; simpl; [reflexivity|].
  rewrite IH. generalize (fold_right (insert_desc (fun x => key (view x))) [] l).
  intros s. induction s as [|y s IHs]; simpl; [reflexivity|].
  destruct (key_leb (key (view y)) (key (view x))); simpl; [reflexivity|].
  now rewrite IHs.
Qed.

End ViewFacts.

(* ================================================================== *)
(** ** What the handlers' store calls return *)

Section CallFacts.

Context {P : Platform}.

Variable db : Database.

Lemma returns_item (d : dict) (k : string) (v : value) :
  Dict.get d k = Some v -> returns db (item d k) v.
Proof.
  intros E. unfold item. rewrite E. apply Returns.ret_.
Qed.

Lemma returns_lookup (s : string) :
  returns db (find_one project (by_id s))
          (option_map project_dict (lookup_project db (Oid.of_str s))).
Proof.
  unfold lookup_project. rewrite <- hd_error_filter, <- hd_error_map.
  rewrite <- (select_map project_dict
                (fun d => eq_match (VOid (Oid.of_str s)) (Dict.get d "_id"))).
  - apply returns_find_one, compile_by_id.
  - intros p. apply by_id_view.
Qed.

Lemma returns_task_count (pid status : string) :
  returns db (task_count (VStr pid) status)
          (Z.of_nat (List.length (tasks_with db pid status))).
Proof.
  unfold tasks_with, task_count.
  rewrite <- (length_map task_dict).
  rewrite <- (select_map task_dict (by_project_status pid status)).
  - now apply returns_count_documents.
  - intros t. apply task_status_view.
Qed.

Lemma returns_notes_count (pid : string) :
  returns db (count_documents note (And [Field "project_id" (CEq (VStr pid))]))
          (Z.of_nat (List.length (notes_of db pid))).
Proof.
  unfold notes_of.
  rewrite <- (length_map note_dict).
  rewrite <- (select_map note_dict (by_project pid)).
  - now apply returns_count_documents.
  - intros n. apply note_project_view.
Qed.

Lemma returns_attach_counts (pid : string) (d : dict) :
  returns db (attach_counts (VStr pid) d) (with_counts db pid d).
Proof.
  unfold attach_counts, with_counts.
  eapply Returns.bind_; [apply returns_task_count|].
  eapply Returns.bind_; [apply returns_task_count|].
  eapply Returns.bind_; [apply returns_task_count|].
  eapply Returns.bind_; [apply returns_notes_count|].
  apply Returns.ret_.
Qed.

Lemma serialized_project_id (p : Stored Project.t) :
  Dict.get (serialize_dict (project_dict p)) "_id" = Some (VStr (Oid.str (_id p))).
Proof.
  now apply (serialize_dict_id (project_dict p) (v := VOid (_id p))).
Qed.

Lemma returns_open_tasks (pid : string) :
  returns db (find task (open_tasks_filter (VStr pid)))
          (map task_dict
               (filter (fun t => (Task.project_id (fields t) =? pid) && is_open t)
                       (tasks db))).
Proof.
  rewrite <- (select_map task_dict (by_project_open pid)).
  - now apply returns_find.
  - intros t. apply task_open_view.
Qed.

Lemma returns_notes (pid : string) :
  returns db (find note (And [Field "project_id" (CEq (VStr pid))]))
          (map note_dict (notes_of db pid)).
Proof.
  unfold notes_of. rewrite <- (select_map note_dict (by_project pid)).
  - now apply returns_find.
  - intros n. apply note_project_view.
Qed.

Lemma returns_enrich (p : Stored Project.t) :
  returns db (enrich (project_dict p)) (related_entry db p).
Proof.
  unfold enrich, related_entry.
  eapply Returns.bind_; [apply returns_item, serialized_project_id|].
  eapply Returns.bind_; [apply returns_open_tasks|].
  eapply Returns.bind_; [apply returns_notes|].
  unfold open_tasks_of, recent_notes_of, cursor_limit, cursor_sort_desc.
  rewrite !firstn_map, sort_desc_map.
  rewrite (firstn_map note_dict).
  apply Returns.ret_.
Qed.

End CallFacts.

(* ================================================================== *)
(** ** Deduplication *)

Section KeepFirst.

Variable A : Type.
Variable key : A -> string.

Lemma mem_In (s : string) (seen : list string) : mem s seen = true <-> In s seen.
Proof.
  unfold mem. rewrite existsb_exists. split.
  - intros (x & Hx & E). apply String.eqb_eq in E. now subst.
  - intros H. exists s. split; [assumption | apply String.eqb_refl].
Qed.

Lemma mem_false (s : string) (seen : list string) : mem s seen = false <-> ~ In s seen.
Proof.
  rewrite <- mem_In. destruct (mem s seen); split; congruence.
Qed.

Lemma keep_first_In (l : list A) : forall seen x,
  In x (keep_first key seen l) -> In x l /\ ~ In (key x) seen.
Proof.
  induction l as [|y l IH]; simpl; intros seen x H; [contradiction|].
  destruct (mem (key y) seen) eqn:E.
  - destruct (IH _ _ H). auto.
  - destruct H as [<- | H].
    + split; [now left | now apply mem_false].
    + destruct (IH _ _ H) as [H1 H2]. split; [now right|].
      intros Hin. apply H2. now right.
Qed.

Lemma keep_first_NoDup (l : list A) : forall seen,
  NoDup (map key (keep_first key seen l)).
Proof.
  induction l as [|y l IH]; simpl; intros seen; [constructor|].
  destruct (mem (key y) seen) eqn:E; [apply IH|].
  simpl. constructor; [|apply IH].
  intros Hin. apply in_map_iff in Hin. destruct Hin as (x & Hk & Hx).
  apply keep_first_In in Hx. destruct Hx as [_ Hx]. apply Hx. left. congruence.
Qed.

(** Every key that is not already seen survives. *)
Lemma keep_first_covers (l : list A) : forall seen x,
  In x l -> ~ In (key x) seen -> In (key x) (map key (keep_first key seen l)).
Proof.
  induction l as [|y l IH]; simpl; intros seen x Hin Hseen; [contradiction|].
  destruct (mem (key y) seen) eqn:E.
  - destruct Hin as [-> | Hin]; [apply mem_In in E; contradiction | now apply IH].
  - simpl. destruct (string_dec (key y) (key x)) as [Ek | Ek]; [now left | right].
    destruct Hin as [-> | Hin]; [congruence|].
    apply IH; [assumption|]. intros [H | H]; [congruence | contradiction].
Qed.

Lemma keep_first_length (l : list A) : forall seen,
  List.length (keep_first key seen l) <= List.length l.
Proof.
  induction l as [|y l IH]; simpl; intros seen; [lia|].
  destruct (mem (key y) seen); simpl; [specialize (IH seen) | specialize (IH (key y :: seen))]; lia.
Qed.

(** Deduplicating a concatenation leaves the deduplicated first part in
    front. *)
Lemma keep_first_app (l1 l2 : list A) : forall seen,
  exists rest,
    keep_first key seen (l1 ++ l2) = (keep_first key seen l1 ++ rest)%list.
Proof.
  induction l1 as [|y l1 IH]; simpl; intros seen.
  - now exists (keep_first key seen l2).
  - destruct (mem (key y) seen).
    + apply IH.
    + destruct (IH (key y :: seen)) as [rest E]. exists rest. now rewrite E.
Qed.

Lemma keep_first_map {B} (view : A -> B) (key' : B -> string) (l : list A) :
  (forall x, key' (view x) = key x) ->
  forall seen, keep_first key' seen (map view l) = map view (keep_first key seen l).
Proof.
  intros E. induction l as [|y l IH]; simpl; intros seen; [reflexivity|].
  rewrite E. destruct (mem (key y) seen); simpl; now rewrite IH.
Qed.

End KeepFirst.

(** The loop of lines 220 to 226 keeps the first document of every
    identifier. *)
Lemma dedupe_fold (l : list dict) : forall seen unique,
  snd (fold_left dedupe_step l (seen, unique))
  = (unique ++ keep_first id_text seen l)%list.
Proof.
  induction l as [|p l IH]; simpl; intros seen unique.
  - now rewrite app_nil_r.
  - destruct (mem (id_text p) seen); simpl.
    + apply IH.
    + rewrite IH, <- app_assoc. reflexivity.
Qed.

Lemma deduplicate_keep_first (l : list dict) :
  deduplicate l = keep_first id_text [] l.
Proof.
  unfold deduplicate. now rewrite dedupe_fold.
Qed.

Lemma deduplicate_projects (l : list (Stored Project.t)) :
  deduplicate (map project_dict l) = map project_dict (keep_first project_key [] l).
Proof.
  rewrite deduplicate_keep_first. now apply keep_first_map.
Qed.

(* ================================================================== *)
(** ** The chat handler, phase by phase *)

Section ChatFacts.

Context {P : Platform}.

Variable db : Database.
Variable q : string.
Variable m : string -> bool.
Hypothesis Hm : regex_search q = Some m.

Lemma compile_project_filter : compile (project_filter q) = Some (project_test m).
Proof. unfold project_filter. simpl. now rewrite Hm. Qed.

Lemma compile_task_filter : compile (task_filter q) = Some (task_test m).
Proof. unfold task_filter. simpl. now rewrite Hm. Qed.

Lemma compile_note_filter : compile (note_filter q) = Some (note_test m).
Proof. unfold note_filter. simpl. now rewrite Hm. Qed.

Lemma returns_fetch_extra (acc : list dict) (pid : string) :
  returns db (fetch_extra acc pid) (acc ++ map project_dict (resolve db pid))%list.
Proof.
  unfold fetch_extra, resolve. apply Returns.try_.
  destruct (Oid.is_valid pid).
  - eapply Returns.bind_; [apply returns_lookup|].
    destruct (lookup_project db (Oid.of_str pid)) as [p|]; simpl.
    + apply Returns.ret_.
    + rewrite app_nil_r. apply Returns.ret_.
  - simpl. rewrite app_nil_r. apply Returns.ret_.
Qed.

Lemma fold_fetch_extra (l : list string) : forall acc,
  fold_left (fun acc pid => (acc ++ map project_dict (resolve db pid))%list) l acc
  = (acc ++ map project_dict (flat_map (resolve db) l))%list.
Proof.
  induction l as [|pid l IH]; simpl; intros acc.
  - now rewrite app_nil_r.
  - now rewrite IH, map_app, app_assoc.
Qed.

Lemma returns_collect_matches :
  returns db (collect_matches q) (map project_dict (merged db m)).
Proof.
  unfold collect_matches.
  eapply Returns.bind_; [apply returns_find, compile_project_filter|].
  eapply Returns.bind_; [apply returns_distinct, compile_task_filter|].
  eapply Returns.bind_; [apply returns_distinct, compile_note_filter|].
  simpl docs.
  rewrite (select_map project_dict (project_test m) (project_hit m))
    by apply project_test_view.
  rewrite (select_map task_dict (task_test m) (task_hit m)) by apply task_test_view.
  rewrite (select_map note_dict (note_test m) (note_hit m)) by apply note_test_view.
  rewrite task_ids_view, note_ids_view.
  unfold cursor_limit. rewrite firstn_map.
  unfold merged, extra_matches. rewrite map_app, <- fold_fetch_extra.
  apply Returns.for_fold_. intros acc pid. apply returns_fetch_extra.
Qed.

Lemma related_entry_name (p : Stored Project.t) :
  Dict.get (related_entry db p) "name" = Some (VStr (Project.name (fields p))).
Proof.
  unfold related_entry.
  rewrite !DictFacts.get_set_other by discriminate.
  now rewrite serialize_dict_other by discriminate.
Qed.

Lemma returns_compose (ps : list (Stored Project.t)) :
  returns db (compose (map (related_entry db) ps))
          match ps with
          | [] => mk_response nothing_found_reply []
          | _ => mk_response
                   (found_reply (List.length ps)
                                (map (fun p => Project.name (fields p)) (firstn 5 ps)))
                   (map (related_entry db) ps)
          end.
Proof.
  destruct ps as [|p ps]; [apply Returns.ret_|].
  unfold compose. remember (p :: ps) as l eqn:El.
  assert (Hne : map (related_entry db) l <> []) by (subst l; discriminate).
  destruct (map (related_entry db) l) as [|e es] eqn:Em; [contradiction|].
  rewrite <- Em. clear Hne Em e es.
  eapply Returns.bind_.
  - rewrite firstn_map, Returns.for_each_map.
    apply Returns.for_each_ with (g := fun p => Project.name (fields p)).
    intros x _. unfold name_or_unnamed. rewrite related_entry_name. apply Returns.ret_.
  - rewrite length_map. subst l. apply Returns.ret_.
Qed.

Lemma returns_chat (payload : ChatRequest) :
  normalize payload = q -> q <> "" ->
  returns db (chat_with_projects payload) (answer db m).
Proof.
  intros Hq Hne. unfold chat_with_projects. rewrite Hq.
  destruct (String.eqb_spec q ""); [contradiction|].
  eapply Returns.bind_; [apply returns_collect_matches|].
  rewrite deduplicate_projects, firstn_map.
  eapply Returns.bind_.
  - rewrite Returns.for_each_map. apply Returns.for_each_.
    intros p _. apply returns_enrich.
  - fold (shown_projects db m). unfold answer.
    generalize (returns_compose (shown_projects db m)).
    destruct (shown_projects db m); exact (fun H => H).
Qed.

End ChatFacts.

(* ================================================================== *)
(** ** The chat endpoint *)

Lemma lstrip_all_space (l : list string) :
  forallb Py.is_space l = true <-> Py.lstrip_points l = [].
Proof.
  induction l as [|a l IH]; simpl; [tauto|].
  destruct (Py.is_space a); simpl; [exact IH|]. split; discriminate.
Qed.

Lemma lstrip_head (l : list string) c r :
  Py.lstrip_points l = c :: r -> Py.is_space c = false.
Proof.
  induction l as [|a l IH]; simpl; [discriminate|].
  destruct (Py.is_space a) eqn:E; [exact IH|]. intros H. now inversion H; subst.
Qed.

Lemma lstrip_In (l : list string) c : In c (Py.lstrip_points l) -> In c l.
Proof.
  induction l as [|a l IH]; simpl; [tauto|].
  destruct (Py.is_space a); simpl; tauto.
Qed.

Lemma points_nonempty (s : string) : ~ In "" (Py.points s).
Proof.
  induction s as [|a s IH]; simpl; [tauto|].
  destruct (Py.points s) as [|[|b p] ps]; simpl in *.
  - intros [H|[]]. discriminate.
  - tauto.
  - destruct (Py.is_cont b); simpl; intros [H|H]; try discriminate; tauto.
Qed.

Lemma concat_empty (l : list string) : ~ In "" l -> concat "" l = "" -> l = [].
Proof.
  destruct l as [|[|a x] l]; simpl; intros Hn E; [reflexivity|tauto|].
  destruct l; discriminate.
Qed.

Lemma strip_blank (s : string) :
  Py.strip s = "" <-> forallb Py.is_space (Py.points s) = true.
Proof.
  unfold Py.strip. split.
  - intros E. apply concat_empty in E.
    + destruct (Py.lstrip_points (Py.points s)) as [|c r] eqn:Hl.
      * now apply lstrip_all_space.
      * exfalso. assert (Hc : Py.is_space c = false) by (eapply lstrip_head; eauto).
        assert (Hr : rev (Py.lstrip_points (rev (c :: r))) = []) by exact E.
        apply (f_equal (@rev string)) in Hr. rewrite rev_involutive in Hr. simpl rev in Hr.
        apply lstrip_all_space in Hr. rewrite forallb_forall in Hr.
        rewrite (Hr c) in Hc; [discriminate|].
        apply in_or_app. right. now left.
    + intros H. rewrite <- in_rev in H. apply lstrip_In in H. rewrite <- in_rev in H.
      apply lstrip_In in H. exact (points_nonempty _ H).
  - intros H. apply lstrip_all_space in H. now rewrite H.
Qed.

Section ChatTheorems.

Context {P : Platform}.

Lemma normalize_blank {C : CaseLaws P} (payload : ChatRequest) :
  normalize payload = "" <-> forallb Py.is_space (Py.points (message payload)) = true.
Proof.
  unfold normalize. rewrite str_lower_empty. apply strip_blank.
Qed.

(** C4. A chat message is empty after trimming and lowercasing exactly
    when it is made of white space only (the empty message included, and
    white space as [str.strip] understands it, the no-break space and the
    other Unicode spaces among it); and every such message is answered with
    the prompt reply and no related project, the world being left as it
    was: no call reaches the store. *)
Theorem chat_blank_message {C : CaseLaws P} (payload : ChatRequest) (w : World) :
  (normalize payload = "" <->
   forallb Py.is_space (Py.points (message payload)) = true) /\
  (normalize payload = "" ->
   chat_with_projects payload w = (Ok (mk_response prompt_reply []), w)).
Proof.
  split; [apply normalize_blank|].
  intros H. unfold chat_with_projects. now rewrite H.
Qed.

Lemma for_each_length {A B} (f : A -> M B) (l : list A) : forall w ys w',
  for_each f l w = (Ok ys, w') -> List.length ys = List.length l.
Proof.
  induction l as [|x l IH]; simpl; intros w ys w' E.
  - unfold ret in E. inversion E. reflexivity.
  - unfold bind, ret in E. destruct (f x w) as [[y|e] w1]; [|discriminate].
    destruct (for_each f l w1) as [[ys'|e] w2] eqn:E2; [|discriminate].
    inversion E; subst. simpl. f_equal. eapply IH; eauto.
Qed.

Lemma compose_related (related : list dict) w resp w' :
  compose related w = (Ok resp, w') -> related_projects resp = related.
Proof.
  destruct related as [|e es]; unfold compose; intros E.
  - unfold ret in E. inversion E. reflexivity.
  - unfold bind, ret in E.
    destruct (for_each name_or_unnamed (firstn 5 (e :: es)) w) as [[names|err] w1];
      [|discriminate].
    inversion E. reflexivity.
Qed.

(** C3. The response of the chat lists at most ten projects; and when the
    merged, deduplicated list is empty after the cap of ten, the answer is
    the nothing-found reply with no related project. *)
Theorem chat_related_capped (payload : ChatRequest) (w : World) :
  (forall resp w',
      chat_with_projects payload w = (Ok resp, w') ->
      List.length (related_projects resp) <= 10) /\
  (forall proj_matches w1,
      normalize payload <> "" ->
      collect_matches (normalize payload) w = (Ok proj_matches, w1) ->
      firstn 10 (deduplicate proj_matches) = [] ->
      chat_with_projects payload w = (Ok (mk_response nothing_found_reply []), w1)).
Proof.
  split.
  - intros resp w' E. unfold chat_with_projects in E.
    destruct (normalize payload =? ""); [unfold ret in E; inversion E; simpl; lia|].
    unfold bind in E.
    destruct (collect_matches (normalize payload) w) as [[pm|e] w1]; [|discriminate].
    destruct (for_each enrich (firstn 10 (deduplicate pm)) w1) as [[related|e] w2] eqn:E2;
      [|discriminate].
    apply for_each_length in E2. apply compose_related in E.
    rewrite E, E2, length_firstn. lia.
  - intros pm w1 Hq Hc Hempty. unfold chat_with_projects.
    destruct (String.eqb_spec (normalize payload) ""); [contradiction|].
    unfold bind. rewrite Hc, Hempty. reflexivity.
Qed.

(** A pattern that the store rejects fails the whole request. *)
Lemma chat_rejected_pattern (payload : ChatRequest) (w : World) :
  normalize payload <> "" ->
  regex_search (normalize payload) = None ->
  fst (chat_with_projects payload w) = Err OperationFailure.
Proof.
  intros Hq Hm. unfold chat_with_projects.
  destruct (String.eqb_spec (normalize payload) ""); [contradiction|].
  unfold bind, collect_matches, find, run_filter, bind, record, read_store.
  simpl. rewrite Hm. reflexivity.
Qed.

End ChatTheorems.

(* ================================================================== *)
(** ** Lists: prefixes and the descending sort *)

Section ListFacts.

Variable A : Type.

Lemma firstn_In (n : nat) (l : list A) (x : A) : In x (firstn n l) -> In x l.
Proof.
  revert l. induction n as [|n IH]; intros [|y l]; simpl; try contradiction.
  intros [-> | H]; [now left | right; auto].
Qed.

Lemma firstn_NoDup (n : nat) (l : list A) : NoDup l -> NoDup (firstn n l).
Proof.
  revert l. induction n as [|n IH]; intros [|y l] H; simpl; try constructor.
  - inversion H; subst. intros Hin. apply firstn_In in Hin. contradiction.
  - inversion H; subst. auto.
Qed.

Lemma firstn_Sorted (R : A -> A -> Prop) (n : nat) (l : list A) :
  Sorted R l -> Sorted R (firstn n l).
Proof.
  revert l. induction n as [|n IH]; intros [|y l] H; simpl; try constructor.
  - apply IH. now inversion H.
  - inversion H as [|? ? _ Hd]; subst.
    destruct n; destruct l; simpl; constructor. now inversion Hd.
Qed.

Variable key : A -> option datetime.

Lemma insert_desc_In (x y : A) (l : list A) :
  In y (insert_desc key x l) <-> y = x \/ In y l.
Proof.
  induction l as [|z l IH]; simpl.
  - intuition.
  - destruct (key_leb (key z) (key x)); simpl; [intuition|].
    rewrite IH. intuition.
Qed.

Lemma sort_desc_In (y : A) (l : list A) : In y (sort_desc key l) <-> In y l.
Proof.
  unfold sort_desc. induction l as [|x l IH]; simpl; [reflexivity|].
  rewrite insert_desc_In, IH. intuition.
Qed.

Hypothesis key_total : forall a b, key_leb (key a) (key b) = false -> key_leb (key b) (key a) = true.

Lemma insert_desc_Sorted (x : A) (l : list A) :
  Sorted (later_first key) l -> Sorted (later_first key) (insert_desc key x l).
Proof.
  induction l as [|z l IH]; simpl; intros H.
  - repeat constructor.
  - destruct (key_leb (key z) (key x)) eqn:E.
    + constructor; [assumption | now constructor].
    + inversion H as [|? ? Hs Hd]; subst. constructor; [now apply IH|].
      destruct l as [|z' l]; simpl.
      * constructor. now apply key_total.
      * destruct (key_leb (key z') (key x)); constructor.
        -- now apply key_total.
        -- now inversion Hd.
Qed.

Lemma sort_desc_Sorted (l : list A) : Sorted (later_first key) (sort_desc key l).
Proof.
  unfold sort_desc. induction l as [|x l IH]; simpl; [constructor|].
  now apply insert_desc_Sorted.
Qed.

End ListFacts.

Lemma filter_none {A} (f : A -> bool) (l : list A) :
  (forall x, In x l -> f x = false) -> filter f l = [].
Proof.
  induction l as [|x l IH]; simpl; intros H; [reflexivity|].
  rewrite (H x) by now left. apply IH. intros y Hy. apply H. now right.
Qed.

Lemma lex_opp (c1 c2 : comparison) :
  CompOpp (Datetime.lex c1 c2) = Datetime.lex (CompOpp c1) (CompOpp c2).
Proof. destruct c1; reflexivity. Qed.

Lemma datetime_compare_antisym (a b : datetime) :
  Datetime.compare b a = CompOpp (Datetime.compare a b).
Proof.
  unfold Datetime.compare. rewrite !lex_opp, <- !Nat.compare_antisym. reflexivity.
Qed.

Lemma datetime_leb_total (a b : datetime) :
  Datetime.leb a b = false -> Datetime.leb b a = true.
Proof.
  unfold Datetime.leb. rewrite (datetime_compare_antisym a b).
  destruct (Datetime.compare a b); simpl; congruence.
Qed.

(* ================================================================== *)
(** ** The related projects of a chat answer *)

Lemma first_insertion_perm (l : list string) :
  Permutation (first_insertion l) (nodup string_dec l).
Proof.
  unfold first_insertion. apply NoDup_Permutation.
  - rewrite <- (map_id (keep_first _ _ l)). apply (keep_first_NoDup (fun s => s)).
  - apply NoDup_nodup.
  - intros x. rewrite nodup_In. split.
    + intros H. now apply keep_first_In in H.
    + intros H. rewrite <- (map_id (keep_first _ _ l)).
      apply (keep_first_covers (fun s => s) l [] x H). intros [].
Qed.

Lemma lower_empty (s : string) : Py.lower s = "" <-> s = "".
Proof.
  destruct s; unfold Py.lower; simpl; split; intros H; try reflexivity; discriminate.
Qed.

Lemma sample_case_laws : CaseLaws insertion_order.
Proof. constructor. exact lower_empty. Qed.

Lemma insertion_laws : PlatformLaws insertion_order.
Proof. constructor. exact first_insertion_perm. Qed.

Lemma reverse_laws : PlatformLaws reverse_order.
Proof.
  constructor. intros l. simpl.
  eapply Permutation_trans; [apply Permutation_sym, Permutation_rev|].
  apply first_insertion_perm.
Qed.

Section RelatedFacts.

Context {P : Platform}.

Variable db : Database.

Lemma related_entry_id (p : Stored Project.t) :
  Dict.get (related_entry db p) "_id" = Some (VStr (project_key p)).
Proof.
  unfold related_entry.
  rewrite !DictFacts.get_set_other by discriminate. apply serialized_project_id.
Qed.

Lemma related_entry_id_text (p : Stored Project.t) :
  id_text (related_entry db p) = project_key p.
Proof. unfold id_text. now rewrite related_entry_id. Qed.

Lemma related_entry_open_tasks (p : Stored Project.t) :
  Dict.get (related_entry db p) "open_tasks"
  = Some (as_docs (map serialize_dict (map task_dict (open_tasks_of db (project_key p))))).
Proof.
  unfold related_entry.
  rewrite DictFacts.get_set_other by discriminate. apply DictFacts.get_set_same.
Qed.

Lemma related_entry_recent_notes (p : Stored Project.t) :
  Dict.get (related_entry db p) "recent_notes"
  = Some (as_docs (map serialize_dict (map note_dict (recent_notes_of db (project_key p))))).
Proof. unfold related_entry. apply DictFacts.get_set_same. Qed.

Lemma open_tasks_of_spec (pid : string) :
  List.length (open_tasks_of db pid) <= 5 /\
  forall t, In t (open_tasks_of db pid) ->
            In t (tasks db) /\ Task.project_id (fields t) = pid /\
            (Task.status (fields t) = "open" \/ Task.status (fields t) = "in-progress").
Proof.
  unfold open_tasks_of. split; [rewrite length_firstn; lia|].
  intros t Hin. apply firstn_In, filter_In in Hin. destruct Hin as [Hin Hc].
  apply andb_true_iff in Hc. destruct Hc as [Hp Ho].
  apply String.eqb_eq in Hp. unfold is_open in Ho. apply orb_true_iff in Ho.
  rewrite !String.eqb_eq in Ho. auto.
Qed.

Lemma recent_notes_of_spec (pid : string) :
  List.length (recent_notes_of db pid) <= 3 /\
  (forall n, In n (recent_notes_of db pid) ->
             In n (notes db) /\ Note.project_id (fields n) = pid) /\
  Sorted newest_first (recent_notes_of db pid).
Proof.
  unfold recent_notes_of. split; [rewrite length_firstn; lia|]. split.
  - intros n Hin. apply firstn_In, sort_desc_In, filter_In in Hin.
    destruct Hin as [Hin Hp]. apply String.eqb_eq in Hp. auto.
  - apply firstn_Sorted.
    apply sort_desc_Sorted with (key := fun n : Stored Note.t => Some (created_at n)).
    intros a b. simpl. apply datetime_leb_total.
Qed.

Lemma resolve_In (pid : string) (p : Stored Project.t) :
  In p (resolve db pid) -> In p (projects db).
Proof.
  unfold resolve. destruct (Oid.is_valid pid); [|contradiction].
  destruct (lookup_project db (Oid.of_str pid)) as [p'|] eqn:E; [|contradiction].
  intros [<- | []]. unfold lookup_project in E. now apply find_some in E.
Qed.

Variable m : string -> bool.

Lemma merged_In (p : Stored Project.t) : In p (merged db m) -> In p (projects db).
Proof.
  unfold merged, direct_matches, extra_matches. rewrite in_app_iff, in_flat_map.
  intros [H | (pid & _ & H)].
  - apply firstn_In, filter_In in H. tauto.
  - eapply resolve_In; eauto.
Qed.

Lemma shown_In (p : Stored Project.t) :
  In p (shown_projects db m) -> In p (projects db).
Proof.
  unfold shown_projects. intros H. apply firstn_In, keep_first_In in H.
  apply merged_In. tauto.
Qed.

Lemma shown_NoDup : NoDup (map project_key (shown_projects db m)).
Proof.
  unfold shown_projects. rewrite <- firstn_map. apply firstn_NoDup, keep_first_NoDup.
Qed.

(** The direct matches never fall to the cap. *)
Lemma direct_shown (p : Stored Project.t) :
  In p (direct_matches db m) -> In (project_key p) (map project_key (shown_projects db m)).
Proof.
  intros Hin. unfold shown_projects, merged.
  destruct (keep_first_app project_key (direct_matches db m) (extra_matches db m) [])
    as [rest E].
  rewrite E, firstn_app, map_app, in_app_iff. left.
  rewrite firstn_all2.
  - apply keep_first_covers; auto.
  - etransitivity; [apply keep_first_length|].
    unfold direct_matches. rewrite length_firstn. lia.
Qed.

Lemma answer_related :
  related_projects (answer db m) = map (related_entry db) (shown_projects db m).
Proof.
  unfold answer. destruct (shown_projects db m); reflexivity.
Qed.

Lemma answer_ids :
  map id_text (related_projects (answer db m)) = map project_key (shown_projects db m).
Proof.
  rewrite answer_related, map_map. apply map_ext. intros p. apply related_entry_id_text.
Qed.

End RelatedFacts.

Section RelatedTheorems.

Context {P : Platform} {L : PlatformLaws P}.

Lemma extra_matches_spec (db : Database) (m : string -> bool) (p : Stored Project.t) :
  In p (extra_matches db m) <->
  exists pid, In pid (task_project_ids db m ++ note_project_ids db m)%list
              /\ In p (resolve db pid).
Proof.
  unfold extra_matches. rewrite in_flat_map.
  split; intros (pid & Hpid & Hp); exists pid; (split; [|assumption]).
  - apply (Permutation_in _ (set_iter_perm _)) in Hpid. now apply nodup_In in Hpid.
  - apply (Permutation_in _ (Permutation_sym (set_iter_perm _))). now apply nodup_In.
Qed.

(** C1, as the code has it.  The identifiers of [related_projects] are
    those of the first ten of: the direct matches (at most ten, in store
    order), followed by the projects that the identifiers of the matching
    tasks and notes lead to, taken in the iteration order of their set; of
    every identifier only the first occurrence is kept.  So no identifier
    occurs twice, and a project among the direct matches occurs exactly
    once, also when a matching task leads to it again. *)
Theorem chat_merge_order (payload : ChatRequest) (w : World)
        (resp : ChatResponse) (w' : World) (m : string -> bool) :
  normalize payload <> "" ->
  regex_search (normalize payload) = Some m ->
  chat_with_projects payload w = (Ok resp, w') ->
  let db := store w in
  let ids := map id_text (related_projects resp) in
  ids = map project_key
            (firstn 10 (keep_first project_key []
                          (direct_matches db m ++ extra_matches db m)%list))
  /\ (forall p, In p (extra_matches db m) <->
                exists pid, In pid (task_project_ids db m ++ note_project_ids db m)%list
                            /\ In p (resolve db pid))
  /\ NoDup ids
  /\ (forall p, In p (direct_matches db m) ->
                count_occ string_dec ids (project_key p) = 1).
Proof.
  intros Hq Hm E db ids.
  destruct (@Returns.result_of _ _ w (answer db m) _ _
              (@returns_chat P db _ m Hm payload eq_refl Hq) E) as (Hr & _).
  injection Hr as ->. subst ids. rewrite answer_ids.
  split; [reflexivity|]. split; [apply extra_matches_spec|].
  split; [apply shown_NoDup|].
  intros p Hin. apply NoDup_count_occ'; [apply shown_NoDup | now apply direct_shown].
Qed.

(** C5, as the code has it.  Every entry of [related_projects] is a stored
    project with [open_tasks] holding at most five tasks, all of that
    project and all open or in progress, and [recent_notes] holding at
    most three notes, all of that project, latest first.  A project among
    the direct matches (the first ten projects whose name, description or
    a tag matches) has an entry, whether or not a task or note matches,
    and its [open_tasks] is empty when it has no open task. *)
Theorem chat_related_context (payload : ChatRequest) (w : World)
        (resp : ChatResponse) (w' : World) (m : string -> bool) :
  normalize payload <> "" ->
  regex_search (normalize payload) = Some m ->
  chat_with_projects payload w = (Ok resp, w') ->
  let db := store w in
  (forall e, In e (related_projects resp) ->
     exists p ts ns,
       In p (projects db) /\
       Dict.get e "_id" = Some (VStr (project_key p)) /\
       Dict.get e "open_tasks" = Some (as_docs (map serialize_dict (map task_dict ts))) /\
       List.length ts <= 5 /\
       (forall t, In t ts ->
          In t (tasks db) /\ Task.project_id (fields t) = project_key p /\
          (Task.status (fields t) = "open" \/ Task.status (fields t) = "in-progress")) /\
       Dict.get e "recent_notes" = Some (as_docs (map serialize_dict (map note_dict ns))) /\
       List.length ns <= 3 /\
       (forall n, In n ns ->
          In n (notes db) /\ Note.project_id (fields n) = project_key p) /\
       Sorted newest_first ns)
  /\ (forall p, In p (direct_matches db m) ->
        exists e, In e (related_projects resp) /\
                  Dict.get e "_id" = Some (VStr (project_key p)) /\
                  ((forall t, In t (tasks db) ->
                              Task.project_id (fields t) = project_key p ->
                              is_open t = false) ->
                   Dict.get e "open_tasks" = Some (VList []))).
Proof.
  intros Hq Hm E db.
  destruct (@Returns.result_of _ _ w (answer db m) _ _
              (@returns_chat P db _ m Hm payload eq_refl Hq) E) as (Hr & _).
  injection Hr as ->. rewrite answer_related. split.
  - intros e He. apply in_map_iff in He. destruct He as (p & <- & Hp).
    exists p, (open_tasks_of db (project_key p)), (recent_notes_of db (project_key p)).
    destruct (open_tasks_of_spec db (project_key p)) as [Hl Ht].
    destruct (recent_notes_of_spec db (project_key p)) as (Hl' & Hn & Hs).
    split; [eapply shown_In; eauto|].
    split; [apply related_entry_id|].
    split; [apply related_entry_open_tasks|].
    split; [exact Hl|]. split; [exact Ht|].
    split; [apply related_entry_recent_notes|].
    split; [exact Hl'|]. split; [exact Hn | exact Hs].
  - intros p Hp. apply (direct_shown db m) in Hp.
    apply in_map_iff in Hp. destruct Hp as (p' & Hk & Hp').
    exists (related_entry db p'). split; [now apply in_map|].
    split; [now rewrite related_entry_id, Hk|].
    intros Hnone. rewrite related_entry_open_tasks, Hk.
    replace (open_tasks_of db (project_key p)) with (@nil (Stored Task.t)); [reflexivity|].
    symmetry. unfold open_tasks_of.
    replace (filter _ (tasks db)) with (@nil (Stored Task.t)); [reflexivity|].
    symmetry. apply filter_none. intros t Ht.
    destruct (String.eqb_spec (Task.project_id (fields t)) (project_key p)) as [Ep|];
      [|reflexivity].
    simpl. now rewrite (Hnone t Ht Ep).
Qed.

End RelatedTheorems.

(* ================================================================== *)
(** ** The chat endpoint on the sample stores *)

Module ChatExamples.

Import Sample.

(** The scenario of the specification: the query "urgent" finds the one
    project once, with its open task "Fix CSS" only and its one note. *)
Example scenario_urgent :
  exists resp w',
    chat_on insertion_order db_site "Urgent " = (Ok resp, w') /\
    map (fun e => Dict.get e "name") (related_projects resp)
    = [Some (VStr "Website Redesign")] /\
    map (fun e => texts_under "title" (Dict.get e "open_tasks")) (related_projects resp)
    = [[Some (VStr "Fix CSS")]] /\
    map (fun e => texts_under "content" (Dict.get e "recent_notes")) (related_projects resp)
    = [[Some (VStr "urgent fix needed")]] /\
    store w' = db_site.
Proof.
  eexists. eexists. split; [vm_compute; reflexivity|]. repeat split.
Qed.

Lemma chat_blank_message_witness :
  CaseLaws insertion_order /\
  chat_on insertion_order db_site (" " ++ Py.chr 160 ++ Py.chr 8195)
  = (Ok (mk_response prompt_reply []), mk_world db_site []).
Proof.
  split; [exact sample_case_laws|].
  destruct (@chat_blank_message insertion_order sample_case_laws
              (mk_request (" " ++ Py.chr 160 ++ Py.chr 8195)) (mk_world db_site []))
    as [Hblank Hprompt].
  apply Hprompt, Hblank. reflexivity.
Defined.

Lemma chat_related_capped_witness :
  chat_on insertion_order db_site "zebra"
  = (Ok (mk_response nothing_found_reply []),
     snd (@collect_matches insertion_order "zebra" (mk_world db_site []))).
Proof.
  apply (proj2 (@chat_related_capped insertion_order (mk_request "zebra")
                  (mk_world db_site [])) []).
  - vm_compute. discriminate.
  - vm_compute. reflexivity.
  - reflexivity.
Defined.

Lemma chat_merge_order_witness :
  exists resp w',
    chat_on insertion_order db_site "urgent" = (Ok resp, w') /\
    NoDup (map id_text (related_projects resp)) /\
    count_occ string_dec (map id_text (related_projects resp)) pA = 1.
Proof.
  eexists. eexists. split; [vm_compute; reflexivity|].
  edestruct (@chat_merge_order insertion_order insertion_laws (mk_request "urgent")
               (mk_world db_site [])) as (_ & _ & Hnd & Hone).
  - vm_compute. discriminate.
  - reflexivity.
  - vm_compute. reflexivity.
  - split; [exact Hnd|].
    apply (Hone (mk_stored (mk_oid pA) (new_project "Website Redesign" ["urgent"]) t0)).
    vm_compute. left. reflexivity.
Defined.

(** C1 as worded fails twice.  (a) On [db_two] the query "css" reaches
    the first project through a task and the second through a note; a set
    that iterates its identifiers in reverse puts the note-derived project
    first, where the specified order has the task-derived one first.
    (b) On [db_eleven] the query "alpha" matches all eleven projects by
    name and the eleventh also through its task; the store returns the
    first ten, the eleventh comes back through the task in eleventh place
    and falls to the cap of ten: it is not in [related_projects]. *)
Lemma chat_merge_order_counterexample :
  (PlatformLaws reverse_order /\
   exists m resp w',
     Regex.search "css" = Some m /\
     map project_key
         (firstn 10 (keep_first project_key [] (merged_as_specified db_two m)))
     = [pA; pB] /\
     chat_on reverse_order db_two "css" = (Ok resp, w') /\
     map id_text (related_projects resp) = [pB; pA])
  /\
  (exists m resp w',
     Regex.search "alpha" = Some m /\
     In eleventh (projects db_eleven) /\
     project_hit m eleventh = true /\
     In (project_key eleventh) (task_project_ids db_eleven m) /\
     chat_on insertion_order db_eleven "alpha" = (Ok resp, w') /\
     count_occ string_dec (map id_text (related_projects resp)) (project_key eleventh) = 0).
Proof.
  split.
  - split; [exact reverse_laws|].
    eexists. eexists. eexists.
    split; [reflexivity|]. split; [vm_compute; reflexivity|].
    split; [vm_compute; reflexivity|]. reflexivity.
  - eexists. eexists. eexists.
    split; [reflexivity|].
    split; [vm_compute; tauto|].
    split; [vm_compute; reflexivity|].
    split; [vm_compute; tauto|].
    split; [vm_compute; reflexivity|]. vm_compute. reflexivity.
Qed.

Lemma chat_related_context_witness :
  exists resp w',
    chat_on insertion_order db_site "urgent" = (Ok resp, w') /\
    exists e, In e (related_projects resp) /\
              Dict.get e "_id" = Some (VStr pA).
Proof.
  eexists. eexists. split; [vm_compute; reflexivity|].
  edestruct (@chat_related_context insertion_order (mk_request "urgent")
               (mk_world db_site [])) as (_ & Hdirect).
  - vm_compute. discriminate.
  - reflexivity.
  - vm_compute. reflexivity.
  - destruct (Hdirect (mk_stored (mk_oid pA) (new_project "Website Redesign" ["urgent"]) t0))
      as (e & He & Hid & _).
    + vm_compute. left. reflexivity.
    + exists e. split; [exact He | exact Hid].
Defined.

(** C5 as worded fails on [db_eleven]: the query "urgent" matches the tag
    of all eleven projects and no task or note; the eleventh project is
    matched through its tag and is not returned. *)
Lemma chat_related_context_counterexample :
  exists m resp w',
    Regex.search "urgent" = Some m /\
    In eleventh (projects db_eleven) /\
    existsb m (Project.tags (fields eleventh)) = true /\
    task_project_ids db_eleven m = [] /\
    note_project_ids db_eleven m = [] /\
    chat_on insertion_order db_eleven "urgent" = (Ok resp, w') /\
    List.length (related_projects resp) = 10 /\
    forall e, In e (related_projects resp) ->
              Dict.get e "_id" <> Some (VStr (project_key eleventh)).
Proof.
  eexists. eexists. eexists.
  split; [reflexivity|].
  split; [vm_compute; tauto|].
  split; [vm_compute; reflexivity|].
  split; [vm_compute; reflexivity|].
  split; [vm_compute; reflexivity|].
  split; [vm_compute; reflexivity|].
  split; [reflexivity|].
  intros e He. simpl in He.
  repeat (destruct He as [<- | He]; [vm_compute; discriminate|]).
  contradiction.
Qed.

End ChatExamples.

(* ================================================================== *)
(** ** The pattern of a chat query is a regular expression *)

Module RegexFacts.

Lemma parse_plain (l : list ascii) :
  forallb (fun a => negb (Regex.is_special a) && negb (Ascii.eqb a ".")) l = true ->
  Regex.parse l = Some (map Regex.Lit l).
Proof.
  induction l as [|a l IH]; simpl; [reflexivity|].
  intros H. apply andb_true_iff in H. destruct H as [Ha Hl].
  apply andb_true_iff in Ha. destruct Ha as [Hs Hd].
  apply negb_true_iff in Hs, Hd. rewrite Hs, Hd, (IH Hl). reflexivity.
Qed.

Lemma match_here_lit (q s : list ascii) :
  Regex.match_here (map Regex.Lit q) s = Substring.prefix_ci q s.
Proof.
  revert s. induction q as [|a q IH]; intros [|c s]; simpl; try reflexivity.
  now rewrite IH.
Qed.

Lemma match_anywhere_lit (q s : list ascii) :
  Regex.match_anywhere (map Regex.Lit q) s = Substring.occurs_ci q s.
Proof.
  induction s as [|c s IH]; simpl.
  - now rewrite match_here_lit.
  - now rewrite match_here_lit, IH.
Qed.

(** On a plain query the engine is case-insensitive substring
    containment. *)
Lemma search_plain (q : string) :
  Regex.plain q = true ->
  exists m, Regex.search q = Some m /\ forall s, m s = Substring.contains_ci q s.
Proof.
  intros H. unfold Regex.search. rewrite (parse_plain _ H).
  eexists. split; [reflexivity|]. intros s. apply match_anywhere_lit.
Qed.

Lemma project_hit_ext (m m' : string -> bool) (p : Stored Project.t) :
  (forall s, m s = m' s) -> project_hit m p = project_hit m' p.
Proof.
  intros E. unfold project_hit. rewrite E.
  replace (existsb m (Project.tags (fields p))) with (existsb m' (Project.tags (fields p))).
  - destruct (Project.description (fields p)); [now rewrite E | reflexivity].
  - induction (Project.tags (fields p)) as [|t l IH]; simpl; [reflexivity|].
    now rewrite E, IH.
Qed.

(** On a plain query the direct matches are the first ten projects whose
    name, description or some tag contains the query, letter case ignored. *)
Lemma plain_query_direct (db : Database) (q : string) :
  Regex.plain q = true ->
  exists m,
    Regex.search q = Some m /\
    direct_matches db m
    = firstn 10 (filter (project_hit (Substring.contains_ci q)) (projects db)).
Proof.
  intros H. destruct (search_plain q H) as (m & Hm & E).
  exists m. split; [exact Hm|]. unfold direct_matches. f_equal.
  apply filter_ext. intros p. now apply project_hit_ext.
Qed.

Import Sample.

(** C2 at the query ".": the text is passed to the store as a pattern, in
    which [.] stands for any character.  On [db_site] no name, tag, task
    title or note contains a full stop, so substring containment selects
    nothing; the chat nevertheless returns the project. *)
Theorem chat_query_is_pattern :
  filter (project_hit (Substring.contains_ci ".")) (projects db_site) = [] /\
  filter (task_hit (Substring.contains_ci ".")) (tasks db_site) = [] /\
  filter (note_hit (Substring.contains_ci ".")) (notes db_site) = [] /\
  exists resp w',
    chat_on insertion_order db_site "." = (Ok resp, w') /\
    map id_text (related_projects resp) = [pA].
Proof.
  split; [reflexivity|]. split; [reflexivity|]. split; [reflexivity|].
  eexists. eexists. split; [vm_compute; reflexivity | reflexivity].
Qed.

End RegexFacts.

(* ================================================================== *)
(** ** Creating tasks and notes, reading one project *)

Lemma oid_eqb_eq (a b : ObjectId) : Oid.eqb a b = true <-> a = b.
Proof.
  destruct a as [x], b as [y]. unfold Oid.eqb. simpl. rewrite String.eqb_eq.
  split; congruence.
Qed.

(** ** What [bytes.fromhex] reads *)

Ltac each_ascii a :=
  destruct a as [[] [] [] [] [] [] [] []]; vm_compute; reflexivity.

Lemma chars_text (l : list ascii) : Py.chars (Py.text l) = l.
Proof. apply list_ascii_of_string_of_list_ascii. Qed.

Lemma text_chars (s : string) : Py.text (Py.chars s) = s.
Proof. apply string_of_list_ascii_of_string. Qed.

Lemma length_chars (s : string) : List.length (Py.chars s) = String.length s.
Proof. induction s as [|a s IH]; simpl; [reflexivity | now rewrite IH]. Qed.

Lemma length_lower (s : string) : String.length (Py.lower s) = String.length s.
Proof.
  unfold Py.lower. now rewrite <- length_chars, chars_text, length_map, length_chars.
Qed.

Lemma string_pairs_ind (Q : string -> Prop) :
  Q "" -> (forall a, Q (String a "")) ->
  (forall a b s, Q s -> Q (String b s) -> Q (String a (String b s))) ->
  forall s, Q s.
Proof.
  intros H0 H1 H2 s.
  assert (H : Q s /\ forall a, Q (String a s)); [|exact (proj1 H)].
  induction s as [|b s [IH IH']]; [now split|].
  split; [apply IH'|]. intros a. apply H2; [exact IH | apply IH'].
Qed.

Lemma hex_value_lower (a : ascii) :
  Oid.hex_value (Py.lower_ascii a) = Oid.hex_value a.
Proof. each_ascii a. Qed.

Lemma is_blank_lower (a : ascii) : Oid.is_blank (Py.lower_ascii a) = Oid.is_blank a.
Proof. each_ascii a. Qed.

Lemma blank_not_hex (a : ascii) : Oid.is_blank a = true -> Oid.hex_value a = None.
Proof.
  destruct a as [[] [] [] [] [] [] [] []]; vm_compute; intros H;
    (reflexivity || discriminate).
Qed.

Lemma hex_not_blank (a : ascii) n : Oid.hex_value a = Some n -> Oid.is_blank a = false.
Proof.
  intros H. destruct (Oid.is_blank a) eqn:E; [|reflexivity].
  rewrite (blank_not_hex a E) in H. discriminate.
Qed.

Lemma hex_digit_value (a : ascii) n :
  Oid.hex_value a = Some n -> (n < 16)%nat /\ Py.hex_digit n = Py.lower_ascii a.
Proof.
  destruct a as [[] [] [] [] [] [] [] []]; vm_compute; intros H;
    try discriminate; inversion H; subst; split; (reflexivity || lia).
Qed.

Lemma fromhex_cons (a : ascii) (s : string) :
  Oid.fromhex (String a s)
  = if Oid.is_blank a then Oid.fromhex s
    else match Oid.hex_value a, s with
         | Some top, String b s' =>
             match Oid.hex_value b with
             | Some bot => option_map (cons (16 * top + bot)) (Oid.fromhex s')
             | None => None
             end
         | _, _ => None
         end.
Proof. reflexivity. Qed.

Lemma lower_cons (a : ascii) (s : string) :
  Py.lower (String a s) = String (Py.lower_ascii a) (Py.lower s).
Proof. reflexivity. Qed.

Lemma digits_cons (a : ascii) (s : string) :
  digits (String a s) = if Oid.is_blank a then digits s else String a (digits s).
Proof.
  unfold digits. simpl. now destruct (Oid.is_blank a).
Qed.

(** Letter case does not matter to [bytes.fromhex]. *)
Lemma fromhex_lower (s : string) : Oid.fromhex (Py.lower s) = Oid.fromhex s.
Proof.
  induction s as [| a | a b s IH IH'] using string_pairs_ind; try reflexivity.
  - rewrite lower_cons, !fromhex_cons, is_blank_lower, hex_value_lower. reflexivity.
  - rewrite lower_cons, (fromhex_cons a), (fromhex_cons (Py.lower_ascii a)).
    rewrite is_blank_lower, hex_value_lower.
    destruct (Oid.is_blank a); [exact IH'|].
    rewrite lower_cons, hex_value_lower, IH. reflexivity.
Qed.

(** What it reads is made of digits and white space. *)
Lemma fromhex_chars (s : string) bs :
  Oid.fromhex s = Some bs ->
  forallb (fun a => Oid.is_hex a || Oid.is_blank a) (Py.chars s) = true.
Proof.
  revert bs.
  induction s as [| a | a b s IH IH'] using string_pairs_ind; intros bs; try reflexivity.
  - rewrite fromhex_cons. simpl. destruct (Oid.is_blank a); [now rewrite orb_true_r|].
    destruct (Oid.hex_value a); discriminate.
  - rewrite fromhex_cons.
    change (Py.chars (String a (String b s))) with (a :: Py.chars (String b s)).
    cbn [forallb]. destruct (Oid.is_blank a) eqn:Ha.
    + intros H. rewrite orb_true_r. simpl. exact (IH' _ H).
    + unfold Oid.is_hex at 1. destruct (Oid.hex_value a) as [top|]; [|discriminate].
      destruct (Oid.hex_value b) as [bot|] eqn:Hb; [|discriminate].
      destruct (Oid.fromhex s) as [bs'|] eqn:Hs; [|discriminate].
      intros _. change (Py.chars (String b s)) with (b :: Py.chars s).
      cbn [forallb]. unfold Oid.is_hex at 1. rewrite Hb. simpl. exact (IH _ eq_refl).
Qed.

(** The bytes it reads, printed back, are the digits in lower case. *)
Lemma fromhex_text (s : string) bs :
  Oid.fromhex s = Some bs ->
  Oid.hex bs = Py.lower (digits s) /\ String.length (digits s) = (2 * List.length bs)%nat.
Proof.
  revert bs.
  induction s as [| a | a b s IH IH'] using string_pairs_ind; intros bs.
  - intros H. inversion H. now split.
  - rewrite fromhex_cons, digits_cons. destruct (Oid.is_blank a).
    + intros H. inversion H. now split.
    + destruct (Oid.hex_value a); discriminate.
  - rewrite fromhex_cons, digits_cons. destruct (Oid.is_blank a); [apply IH'|].
    destruct (Oid.hex_value a) as [top|] eqn:Ha; [|discriminate].
    destruct (Oid.hex_value b) as [bot|] eqn:Hb; [|discriminate].
    destruct (Oid.fromhex s) as [bs'|] eqn:Hs; [|discriminate].
    intros H. assert (Hbs : bs = ((16 * top + bot) :: bs')%nat)
      by (cbn [option_map] in H; congruence).
    subst bs. clear H.
    rewrite digits_cons, (hex_not_blank b Hb), !lower_cons.
    destruct (IH _ eq_refl) as [IHt IHl].
    destruct (hex_digit_value a Ha) as [Htop Hta].
    destruct (hex_digit_value b Hb) as [Hbot Htb].
    split.
    + cbn [Oid.hex].
      replace ((16 * top + bot) / 16)%nat with top
        by (rewrite Nat.mul_comm, Nat.div_add_l, (Nat.div_small bot 16); lia).
      replace ((16 * top + bot) mod 16)%nat with bot
        by (rewrite Nat.add_comm, Nat.mul_comm, Nat.Div0.mod_add, Nat.mod_small; lia).
      now rewrite Hta, Htb, IHt.
    + cbn [String.length List.length]. rewrite IHl. lia.
Qed.

(** It reads every text of an even number of digits. *)
Lemma fromhex_accepts (s : string) :
  forallb Oid.is_hex (Py.chars s) = true -> Nat.even (String.length s) = true ->
  exists bs, Oid.fromhex s = Some bs.
Proof.
  induction s as [| a | a b s IH IH'] using string_pairs_ind.
  - intros _ _. now exists [].
  - intros _ H. discriminate.
  - change (Py.chars (String a (String b s))) with (a :: b :: Py.chars s).
    cbn [forallb String.length]. intros H He.
    apply andb_true_iff in H. destruct H as [Ha H].
    apply andb_true_iff in H. destruct H as [Hb H].
    unfold Oid.is_hex in Ha, Hb.
    destruct (Oid.hex_value a) as [top|] eqn:Hta; [|discriminate].
    destruct (Oid.hex_value b) as [bot|] eqn:Htb; [|discriminate].
    destruct (IH H He) as [bs Hs].
    exists ((16 * top + bot) :: bs)%nat.
    rewrite fromhex_cons, (hex_not_blank a Hta), Hta, Htb, Hs. reflexivity.
Qed.

(** [ObjectId.is_valid] accepts every text of 24 digits, and what it
    accepts has 24 characters, each a digit or white space. *)
Lemma is_valid_digits (s : string) :
  (String.length s = 24 -> forallb Oid.is_hex (Py.chars s) = true ->
   Oid.is_valid s = true) /\
  (Oid.is_valid s = true ->
   String.length s = 24 /\
   forallb (fun a => Oid.is_hex a || Oid.is_blank a) (Py.chars s) = true).
Proof.
  unfold Oid.is_valid. split.
  - intros Hl Hh. rewrite Hl. destruct (fromhex_accepts s Hh) as [bs Hs].
    + now rewrite Hl.
    + now rewrite Hs.
  - intros H. apply andb_true_iff in H. destruct H as [Hl Hr].
    apply Nat.eqb_eq in Hl. split; [exact Hl|].
    destruct (Oid.fromhex s) as [bs|] eqn:Hs; [|discriminate].
    exact (fromhex_chars s Hs).
Qed.

Lemma lookup_none (db : Database) (o : ObjectId) :
  (forall p, In p (projects db) -> _id p <> o) -> lookup_project db o = None.
Proof.
  intros H. unfold lookup_project.
  destruct (List.find _ (projects db)) as [p|] eqn:E; [|reflexivity].
  apply find_some in E. destruct E as [Hin He]. apply oid_eqb_eq in He.
  now elim (H p Hin).
Qed.

Section CrudTheorems.

Context {P : Platform}.

(** The one store call of the existence check, and its record. *)
Lemma find_project_run (s : string) (w : World) :
  find_one project (by_id s) w
  = (Ok (option_map project_dict (lookup_project (store w) (Oid.of_str s))),
     mk_world (store w) (calls w ++ [call_find_one project (by_id s)])%list).
Proof.
  unfold find_one, run_filter, bind, record, read_store, ret. simpl.
  unfold lookup_project. rewrite <- hd_error_filter, <- hd_error_map.
  rewrite <- (select_map project_dict
                (fun d => eq_match (VOid (Oid.of_str s)) (Dict.get d "_id")));
    [reflexivity|].
  intros p. apply by_id_view.
Qed.

(** C6. [create_task] and [create_note] answer 400 to a [project_id] that
    [ObjectId.is_valid] rejects and 404 to one that it accepts and that no
    project has; in both cases the store is left as it was: at most the
    existence check reached it, and nothing was inserted.  The check
    accepts every text of 24 hexadecimal digits, and what it accepts has 24
    characters, each a digit or ASCII white space. *)
Theorem create_checks_project (w : World) (oid : ObjectId) (now : datetime) :
  (forall s : string,
      (String.length s = 24 -> forallb Oid.is_hex (Py.chars s) = true ->
       Oid.is_valid s = true) /\
      (Oid.is_valid s = true ->
       String.length s = 24 /\
       forallb (fun a => Oid.is_hex a || Oid.is_blank a) (Py.chars s) = true)) /\
  (forall t : Task.t,
      Oid.is_valid (Task.project_id t) = false ->
      create_task t oid now w = (Err (HTTPException 400 "Invalid project id"), w)) /\
  (forall t : Task.t,
      Oid.is_valid (Task.project_id t) = true ->
      (forall p, In p (projects (store w)) -> _id p <> Oid.of_str (Task.project_id t)) ->
      create_task t oid now w
      = (Err (HTTPException 404 "Project not found"),
         mk_world (store w)
                  (calls w ++ [call_find_one project (by_id (Task.project_id t))])%list)) /\
  (forall n : Note.t,
      Oid.is_valid (Note.project_id n) = false ->
      create_note n oid now w = (Err (HTTPException 400 "Invalid project id"), w)) /\
  (forall n : Note.t,
      Oid.is_valid (Note.project_id n) = true ->
      (forall p, In p (projects (store w)) -> _id p <> Oid.of_str (Note.project_id n)) ->
      create_note n oid now w
      = (Err (HTTPException 404 "Project not found"),
         mk_world (store w)
                  (calls w ++ [call_find_one project (by_id (Note.project_id n))])%list)).
Proof.
  split; [exact is_valid_digits|]. repeat split.
  - intros t Hv. unfold create_task. now rewrite Hv.
  - intros t Hv Hnone. unfold create_task. rewrite Hv. simpl.
    unfold bind. rewrite find_project_run, (lookup_none _ Hnone). reflexivity.
  - intros n Hv. unfold create_note. now rewrite Hv.
  - intros n Hv Hnone. unfold create_note. rewrite Hv. simpl.
    unfold bind. rewrite find_project_run, (lookup_none _ Hnone). reflexivity.
Qed.

(** With an existing project the task is inserted. *)
Lemma create_task_inserts (w : World) (oid : ObjectId) (now : datetime) (t : Task.t)
      (p : Stored Project.t) :
  Oid.is_valid (Task.project_id t) = true ->
  lookup_project (store w) (Oid.of_str (Task.project_id t)) = Some p ->
  tasks (store (snd (create_task t oid now w)))
  = (tasks (store w) ++ [mk_stored oid t now])%list.
Proof.
  intros Hv Hp. unfold create_task. rewrite Hv. simpl.
  unfold bind. rewrite find_project_run, Hp. reflexivity.
Qed.

(** [get_project]: the two failures, and the answer for a project that
    exists.  The counts are those of the tasks and notes whose
    [project_id] is the text of the request. *)
Lemma get_project_invalid (s : string) (w : World) :
  Oid.is_valid s = false ->
  get_project s w = (Err (HTTPException 400 "Invalid project id"), w).
Proof. intros Hv. unfold get_project. now rewrite Hv. Qed.

Lemma get_project_missing (s : string) (w : World) :
  Oid.is_valid s = true ->
  (forall p, In p (projects (store w)) -> _id p <> Oid.of_str s) ->
  fst (get_project s w) = Err (HTTPException 404 "Project not found").
Proof.
  intros Hv Hnone. unfold get_project. rewrite Hv. simpl.
  unfold bind. rewrite find_project_run, (lookup_none _ Hnone). reflexivity.
Qed.

Lemma returns_get_project (db : Database) (s : string) (p : Stored Project.t) :
  Oid.is_valid s = true ->
  lookup_project db (Oid.of_str s) = Some p ->
  returns db (get_project s) (with_counts db s (serialize_dict (project_dict p))).
Proof.
  intros Hv Hp. unfold get_project. rewrite Hv. simpl.
  eapply Returns.bind_; [apply returns_lookup|].
  rewrite Hp. simpl. apply returns_attach_counts.
Qed.

End CrudTheorems.

Module CrudExamples.

Import Sample.

Lemma create_checks_project_witness :
  @create_task insertion_order (new_task "not-an-id" "Plan" "open") (mk_oid pB) t2 w_site
  = (Err (HTTPException 400 "Invalid project id"), w_site) /\
  @create_note insertion_order (Note.mk missing_id None "hello") (mk_oid pB) t2 w_site
  = (Err (HTTPException 404 "Project not found"),
     mk_world db_site [call_find_one project (by_id missing_id)]).
Proof.
  destruct (@create_checks_project insertion_order w_site (mk_oid pB) t2)
    as (_ & Hbad & _ & _ & Hmissing).
  split.
  - apply Hbad. reflexivity.
  - apply Hmissing; [reflexivity|].
    intros p Hin. simpl in Hin. destruct Hin as [<- | []]. discriminate.
Defined.

(** C6 as worded fails at a text of 24 characters that is no identifier:
    eight pairs of digits, a space after each.  [ObjectId.is_valid] accepts
    it, [ObjectId] reads eight bytes from it, the project is looked up, and
    the answer is 404 where the claim says 400. *)
Lemma create_checks_project_counterexample :
  String.length spaced_id = 24 /\
  forallb Oid.is_hex (Py.chars spaced_id) = false /\
  Oid.str (Oid.of_str spaced_id) = "aaaaaaaaaaaaaaaa" /\
  @create_task insertion_order (new_task spaced_id "Plan" "open") (mk_oid pB) t2 w_site
  = (Err (HTTPException 404 "Project not found"),
     mk_world db_site [call_find_one project (by_id spaced_id)]) /\
  @create_note insertion_order (Note.mk spaced_id None "hello") (mk_oid pB) t2 w_site
  = (Err (HTTPException 404 "Project not found"),
     mk_world db_site [call_find_one project (by_id spaced_id)]).
Proof.
  repeat split; vm_compute; reflexivity.
Qed.

(** C7 at an identifier written in upper case.  [ObjectId.is_valid]
    accepts it and [ObjectId] reads it as the identifier of the stored
    project, which is found; the counts are then taken over the tasks and
    notes whose [project_id] equals the text of the request, and the
    project's own tasks and note, stored under the lower-case text that
    the API hands out, are not counted.  [list_projects], which counts
    under [str(d["_id"])], reports them. *)
Theorem get_project_counts_request_text :
  List.length (tasks_with db_site pA "open") = 1 /\
  List.length (tasks_with db_site pA "done") = 1 /\
  List.length (notes_of db_site pA) = 1 /\
  (exists d w',
      @get_project insertion_order pA_upper w_site = (Ok d, w') /\
      Dict.get d "_id" = Some (VStr pA) /\
      Dict.get d "task_counts"
      = Some (VDict [("open", VInt 0); ("in_progress", VInt 0); ("done", VInt 0)]) /\
      Dict.get d "notes_count" = Some (VInt 0)) /\
  (exists ds w',
      @list_projects insertion_order None None w_site = (Ok ds, w') /\
      map (fun d => (Dict.get d "_id", Dict.get d "task_counts", Dict.get d "notes_count")) ds
      = [(Some (VStr pA),
          Some (VDict [("open", VInt 1); ("in_progress", VInt 0); ("done", VInt 1)]),
          Some (VInt 1))]).
Proof.
  split; [reflexivity|]. split; [reflexivity|]. split; [reflexivity|]. split.
  - eexists. eexists. split; [vm_compute; reflexivity|]. repeat split.
  - eexists. eexists. split; [vm_compute; reflexivity|]. reflexivity.
Qed.

(** With the identifier as the API hands it out the counts are the
    project's. *)
Example get_project_canonical :
  exists d w',
    @get_project insertion_order pA w_site = (Ok d, w') /\
    Dict.get d "task_counts"
    = Some (VDict [("open", VInt 1); ("in_progress", VInt 0); ("done", VInt 1)]) /\
    Dict.get d "notes_count" = Some (VInt 1).
Proof.
  eexists. eexists. split; [vm_compute; reflexivity|]. split; reflexivity.
Qed.

End CrudExamples.

(* ================================================================== *)
(** ** The list endpoints and their limit *)

Section ListTheorems.

Context {P : Platform}.

Lemma get_documents_run c q limit p (w : World) :
  compile q = Some p ->
  get_documents c q limit w
  = (Ok (firstn (Z.to_nat limit) (filter p (docs (store w) c))),
     mk_world (store w) (calls w ++ [call_get_documents c q limit])%list).
Proof.
  intros Hc. unfold get_documents, run_filter, bind, record, read_store, ret.
  simpl. now rewrite Hc.
Qed.

Lemma get_documents_bound c q limit (w : World) found w1 :
  get_documents c q limit w = (Ok found, w1) ->
  List.length found <= Z.to_nat limit.
Proof.
  unfold get_documents, run_filter, bind, record, read_store, ret, raise. simpl.
  destruct (compile q); intros E; inversion E. rewrite length_firstn. lia.
Qed.

Lemma query_within (default cap v : Z) :
  (v <= cap)%Z -> Query default cap (Some v) = ret v.
Proof. intros H. unfold Query. now rewrite (proj2 (Z.leb_le v cap) H). Qed.

Lemma query_beyond (default cap v : Z) (w : World) :
  (cap < v)%Z -> Query default cap (Some v) w = (Err ValidationError, w).
Proof. intros H. unfold Query. now rewrite (proj2 (Z.leb_gt v cap) H). Qed.

Lemma query_result (default cap : Z) (given : option Z) (w : World) l w1 :
  Query default cap given w = (Ok l, w1) ->
  effective_limit default cap given l /\ w1 = w.
Proof.
  unfold Query, effective_limit, ret, raise. destruct given as [v|].
  - destruct (Z.leb_spec v cap); intros E; inversion E; subst. auto.
  - intros E; inversion E; subst. auto.
Qed.

Lemma list_projects_bound status given (w : World) ds w' :
  list_projects status given w = (Ok ds, w') ->
  exists l, effective_limit 100 500 given l /\ List.length ds <= Z.to_nat l.
Proof.
  unfold list_projects. unfold bind at 1.
  destruct (Query 100 500 given w) as [[l|e] w1] eqn:Eq; [|discriminate].
  apply query_result in Eq. destruct Eq as [Hl ->].
  unfold bind at 1.
  destruct (get_documents project _ l w) as [[found|e] w2] eqn:Eg; [|discriminate].
  apply get_documents_bound in Eg.
  unfold bind at 1.
  match goal with
  | |- context [for_each ?f found w2] =>
      destruct (for_each f found w2) as [[counted|e] w3] eqn:Ef; [|discriminate]
  end.
  apply for_each_length in Ef. unfold ret. intros E. inversion E; subst.
  exists l. rewrite length_map. split; [assumption | lia].
Qed.

Lemma list_tasks_bound project_id status given (w : World) ds w' :
  list_tasks project_id status given w = (Ok ds, w') ->
  exists l, effective_limit 200 1000 given l /\ List.length ds <= Z.to_nat l.
Proof.
  unfold list_tasks. unfold bind at 1.
  destruct (Query 200 1000 given w) as [[l|e] w1] eqn:Eq; [|discriminate].
  apply query_result in Eq. destruct Eq as [Hl ->].
  unfold bind at 1.
  match goal with
  | |- context [get_documents task ?f l w] =>
      destruct (get_documents task f l w) as [[found|e] w2] eqn:Eg; [|discriminate]
  end.
  apply get_documents_bound in Eg. unfold ret. intros E. inversion E; subst.
  exists l. rewrite length_map. split; [assumption | lia].
Qed.

Lemma list_notes_bound project_id given (w : World) ds w' :
  list_notes project_id given w = (Ok ds, w') ->
  exists l, effective_limit 200 1000 given l /\ List.length ds <= Z.to_nat l.
Proof.
  unfold list_notes. unfold bind at 1.
  destruct (Query 200 1000 given w) as [[l|e] w1] eqn:Eq; [|discriminate].
  apply query_result in Eq. destruct Eq as [Hl ->].
  unfold bind at 1.
  match goal with
  | |- context [get_documents note ?f l w] =>
      destruct (get_documents note f l w) as [[found|e] w2] eqn:Eg; [|discriminate]
  end.
  apply get_documents_bound in Eg. unfold ret. intros E. inversion E; subst.
  exists l. rewrite length_map. split; [assumption | lia].
Qed.

(** C9, as the code has it.  A list request with a limit from zero up to
    the cap is answered with at most that many documents, a request with
    no limit with at most the default (100 projects, 200 tasks or notes),
    and a limit above the cap (500 projects, 1000 tasks or notes) fails
    with a validation error before the store is reached. *)
Theorem list_limit_bounds (w : World) :
  (forall status limit ds w',
      (0 <= limit)%Z ->
      list_projects status (Some limit) w = (Ok ds, w') ->
      (Z.of_nat (List.length ds) <= limit)%Z) /\
  (forall status ds w',
      list_projects status None w = (Ok ds, w') -> List.length ds <= 100) /\
  (forall status limit,
      (500 < limit)%Z ->
      list_projects status (Some limit) w = (Err ValidationError, w)) /\
  (forall project_id status limit ds w',
      (0 <= limit)%Z ->
      list_tasks project_id status (Some limit) w = (Ok ds, w') ->
      (Z.of_nat (List.length ds) <= limit)%Z) /\
  (forall project_id status ds w',
      list_tasks project_id status None w = (Ok ds, w') -> List.length ds <= 200) /\
  (forall project_id status limit,
      (1000 < limit)%Z ->
      list_tasks project_id status (Some limit) w = (Err ValidationError, w)) /\
  (forall project_id limit ds w',
      (0 <= limit)%Z ->
      list_notes project_id (Some limit) w = (Ok ds, w') ->
      (Z.of_nat (List.length ds) <= limit)%Z) /\
  (forall project_id ds w',
      list_notes project_id None w = (Ok ds, w') -> List.length ds <= 200) /\
  (forall project_id limit,
      (1000 < limit)%Z ->
      list_notes project_id (Some limit) w = (Err ValidationError, w)).
Proof.
  repeat split.
  - intros status limit ds w' H0 E. apply list_projects_bound in E.
    destruct E as (l & [-> _] & Hlen). lia.
  - intros status ds w' E. apply list_projects_bound in E.
    destruct E as (l & Hl & Hlen). simpl in Hl. subst l. exact Hlen.
  - intros status limit H. unfold list_projects, bind.
    now rewrite (query_beyond 100 w H).
  - intros project_id status limit ds w' H0 E. apply list_tasks_bound in E.
    destruct E as (l & [-> _] & Hlen). lia.
  - intros project_id status ds w' E. apply list_tasks_bound in E.
    destruct E as (l & Hl & Hlen). simpl in Hl. subst l. exact Hlen.
  - intros project_id status limit H. unfold list_tasks, bind.
    now rewrite (query_beyond 200 w H).
  - intros project_id limit ds w' H0 E. apply list_notes_bound in E.
    destruct E as (l & [-> _] & Hlen). lia.
  - intros project_id ds w' E. apply list_notes_bound in E.
    destruct E as (l & Hl & Hlen). simpl in Hl. subst l. exact Hlen.
  - intros project_id limit H. unfold list_notes, bind.
    now rewrite (query_beyond 200 w H).
Qed.

End ListTheorems.

Section LimitPassing.

Context {P : Platform}.

Lemma compile_status_filter (status : option string) :
  exists p,
    compile (match given_str status with
             | Some s => And [eq_str "status" s]
             | None => And []
             end) = Some p.
Proof. destruct (given_str status); eexists; reflexivity. Qed.

Lemma returns_count_loop (db : Database) (ps : list (Stored Project.t)) :
  returns db
    (docs <- for_each (fun d =>
               id <- item d "_id" ;;
               let d := Dict.set d "_id" (VStr (py_str id)) in
               pid <- item d "_id" ;;
               attach_counts pid d) (map project_dict ps) ;;
     ret (map serialize_dict docs))
    (map (listed_project db) ps).
Proof.
  eapply Returns.bind_.
  - rewrite Returns.for_each_map.
    apply Returns.for_each_ with
      (g := fun p => with_counts db (project_key p)
                       (Dict.set (project_dict p) "_id" (VStr (project_key p)))).
    intros p _.
    eapply Returns.bind_; [apply returns_item; reflexivity|].
    eapply Returns.bind_; [apply returns_item, DictFacts.get_set_same|].
    apply returns_attach_counts.
  - rewrite map_map. apply Returns.ret_.
Qed.

(** C10. The limit of a list request is only bounded from above: every
    integer up to the cap, zero and the negative ones included, passes
    validation, the request is served, and the document fetch is called
    with that very value. *)
Theorem list_limit_passed_through (w : World) :
  (forall status limit,
      (limit <= 500)%Z ->
      exists ds w' filt rest,
        list_projects status (Some limit) w = (Ok ds, w') /\
        calls w' = (calls w ++ call_get_documents project filt limit :: rest)%list) /\
  (forall project_id status limit,
      (limit <= 1000)%Z ->
      exists ds w' filt rest,
        list_tasks project_id status (Some limit) w = (Ok ds, w') /\
        calls w' = (calls w ++ call_get_documents task filt limit :: rest)%list) /\
  (forall project_id limit,
      (limit <= 1000)%Z ->
      exists ds w' filt rest,
        list_notes project_id (Some limit) w = (Ok ds, w') /\
        calls w' = (calls w ++ call_get_documents note filt limit :: rest)%list).
Proof.
  repeat split.
  - intros status limit H. unfold list_projects.
    rewrite (query_within 100 H). unfold bind at 1, ret at 1. unfold bind at 1.
    destruct (compile_status_filter status) as [p Hp].
    rewrite (@get_documents_run P project _ limit p w Hp).
    simpl docs. rewrite filter_map_swap, firstn_map. cbv beta iota.
    match goal with
    | |- context [map project_dict ?l] =>
        destruct (@returns_count_loop (store w) l
                    (mk_world (store w)
                              (calls w ++ [call_get_documents project
                                 (match given_str status with
                                  | Some s => And [eq_str "status" s]
                                  | None => And []
                                  end) limit])%list) eq_refl) as [cs E]
    end.
    do 4 eexists. split; [exact E|].
    simpl. rewrite <- app_assoc. reflexivity.
  - intros project_id status limit H. unfold list_tasks.
    rewrite (query_within 200 H). unfold bind at 1, ret at 1. unfold bind, ret.
    assert (Hp : exists p, compile (And
               (match given_str status with
                | Some s =>
                    (match given_str project_id with
                     | Some s0 => ([] ++ [eq_str "project_id" s0])%list
                     | None => []
                     end ++ [eq_str "status" s])%list
                | None =>
                    match given_str project_id with
                    | Some s0 => ([] ++ [eq_str "project_id" s0])%list
                    | None => []
                    end
                end)) = Some p)
      by (destruct (given_str status), (given_str project_id); eexists; reflexivity).
    destruct Hp as [p Hp]. rewrite (@get_documents_run P task _ limit p w Hp).
    do 4 eexists. split; [reflexivity|]. simpl. reflexivity.
  - intros project_id limit H. unfold list_notes.
    rewrite (query_within 200 H). unfold bind at 1, ret at 1. unfold bind, ret.
    assert (Hp : exists p, compile (match given_str project_id with
                                    | Some s => And [eq_str "project_id" s]
                                    | None => And []
                                    end) = Some p)
      by (destruct (given_str project_id); eexists; reflexivity).
    destruct Hp as [p Hp]. rewrite (@get_documents_run P note _ limit p w Hp).
    do 4 eexists. split; [reflexivity|]. simpl. reflexivity.
Qed.

End LimitPassing.

Module ListExamples.

Import Sample.

Lemma list_limit_bounds_witness :
  exists ds w',
    @list_projects insertion_order None (Some 1%Z) w_two = (Ok ds, w') /\
    (Z.of_nat (List.length ds) <= 1)%Z.
Proof.
  eexists. eexists. split; [vm_compute; reflexivity|].
  eapply (proj1 (@list_limit_bounds insertion_order w_two) None 1%Z).
  - lia.
  - vm_compute. reflexivity.
Defined.

(** C9 as worded fails at a negative limit: the request passes validation
    and is served, and no answer can hold fewer than zero documents. *)
Lemma list_limit_bounds_counterexample :
  exists ds w',
    @list_projects insertion_order None (Some (-1)%Z) w_two = (Ok ds, w') /\
    ~ (Z.of_nat (List.length ds) <= -1)%Z.
Proof.
  eexists. eexists. split; [vm_compute; reflexivity|]. simpl. lia.
Qed.

Lemma list_limit_passed_through_witness :
  exists ds w' filt rest,
    @list_notes insertion_order (Some pB) (Some (-3)%Z) w_two = (Ok ds, w') /\
    calls w' = (calls w_two ++ call_get_documents note filt (-3) :: rest)%list.
Proof.
  apply (proj2 (proj2 (@list_limit_passed_through insertion_order w_two))). lia.
Defined.

Lemma serialize_doc_contract_witness :
  exists d',
    serialize_doc (Some stored_note) = Some d' /\
    Dict.get d' "_id" = Some (VStr "222222222222222222222222") /\
    Dict.get d' "created_at" = Some (VStr "2024-02-01T00:00:00.000250") /\
    Dict.get d' "content" = Some (VStr "kick-off").
Proof.
  destruct (proj2 (proj2 serialize_doc_contract) stored_note)
    as (d' & Hs & _ & Hid & _ & Htime & Hother & _).
  exists d'. split; [exact Hs|]. split; [|split].
  - apply (Hid (mk_oid "222222222222222222222222")). reflexivity.
  - apply (Htime "created_at" t2); [discriminate | reflexivity].
  - apply (Hother "content"); [discriminate | discriminate | reflexivity].
Defined.

End ListExamples.

(* ================================================================== *)
(** * Further properties of the code *)

(** ** [serialize_doc] once more *)

Lemma set_same (d : dict) (k : string) (v : value) :
  Dict.get d k = Some v -> Dict.set d k v = d.
Proof.
  induction d as [|[k' v'] d IH]; simpl; [discriminate|].
  destruct (String.eqb_spec k k') as [->|Hne].
  - intros E. now inversion E.
  - intros E. now rewrite IH.
Qed.

Lemma iso_value_idem (v : value) : iso_value (iso_value v) = iso_value v.
Proof. destruct v; reflexivity. Qed.

Lemma iso_value_falsy (v : value) : truthy v = false -> iso_value v = v.
Proof. destruct v; simpl; congruence. Qed.

Lemma map_values_iso_idem (d : dict) :
  Dict.map_values iso_value (Dict.map_values iso_value d) = Dict.map_values iso_value d.
Proof.
  unfold Dict.map_values. rewrite map_map. apply map_ext.
  intros [k v]. simpl. now rewrite iso_value_idem.
Qed.

(** What [serialize_dict] leaves under [_id]. *)
Lemma serialize_dict_id_cases (d : dict) :
  match Dict.get d "_id" with
  | Some v =>
      if truthy v
      then Dict.get (serialize_dict d) "_id" = Some (VStr (py_str v))
      else Dict.get (serialize_dict d) "_id" = Some v
  | None => Dict.get (serialize_dict d) "_id" = None
  end.
Proof.
  destruct (Dict.get d "_id") as [v|] eqn:E.
  - destruct (truthy v) eqn:Ht.
    + now apply serialize_dict_id.
    + unfold serialize_dict. rewrite E, Ht, DictFacts.get_map_values, E. simpl.
      now rewrite iso_value_falsy.
  - unfold serialize_dict. now rewrite E, DictFacts.get_map_values, E.
Qed.

Lemma serialize_dict_is_mapped (d : dict) :
  Dict.map_values iso_value (serialize_dict d) = serialize_dict d.
Proof. unfold serialize_dict. apply map_values_iso_idem. Qed.

(** Serializing a serialized document changes nothing: [list_projects],
    which turns [_id] into text before it calls [serialize_doc], loses
    nothing by it. *)
Theorem serialize_dict_idempotent (d : dict) :
  serialize_dict (serialize_dict d) = serialize_dict d.
Proof.
  pose proof (serialize_dict_id_cases d) as H.
  unfold serialize_dict at 1.
  destruct (Dict.get d "_id") as [v|].
  - destruct (truthy v) eqn:Ht.
    + rewrite H. destruct (truthy (VStr (py_str v))).
      * simpl py_str. rewrite (set_same _ _ H). apply serialize_dict_is_mapped.
      * apply serialize_dict_is_mapped.
    + rewrite H, Ht. apply serialize_dict_is_mapped.
  - rewrite H. apply serialize_dict_is_mapped.
Qed.

(** After [serialize_doc] no field of the document holds a [datetime], and
    [_id] does not hold an [ObjectId]. *)
Theorem serialize_dict_plain (d : dict) (k : string) :
  (forall t, Dict.get (serialize_dict d) k <> Some (VDatetime t)) /\
  (forall o, Dict.get (serialize_dict d) "_id" <> Some (VOid o)).
Proof.
  split.
  - intros t E. rewrite <- serialize_dict_is_mapped, DictFacts.get_map_values in E.
    destruct (Dict.get (serialize_dict d) k) as [v|]; [|discriminate].
    destruct v; discriminate.
  - intros o E. pose proof (serialize_dict_id_cases d) as H.
    destruct (Dict.get d "_id") as [v|].
    + destruct (truthy v) eqn:Ht; rewrite H in E; [discriminate|].
      inversion E; subst. discriminate.
    + rewrite H in E. discriminate.
Qed.

(** ** [PyObjectId.validate] *)

Lemma lower_ascii_idem (a : ascii) :
  Py.lower_ascii (Py.lower_ascii a) = Py.lower_ascii a.
Proof. each_ascii a. Qed.

Lemma lower_idem (s : string) : Py.lower (Py.lower s) = Py.lower s.
Proof.
  unfold Py.lower. rewrite chars_text, map_map. f_equal. apply map_ext.
  intros a. apply lower_ascii_idem.
Qed.

Lemma filter_length_all {A} (f : A -> bool) (l : list A) :
  List.length (filter f l) = List.length l -> forallb f l = true.
Proof.
  induction l as [|a l IH]; simpl; [reflexivity|].
  destruct (f a); simpl; intros H.
  - apply IH. lia.
  - pose proof (filter_length_le f l). lia.
Qed.

Lemma is_valid_lower (s : string) : Oid.is_valid (Py.lower s) = Oid.is_valid s.
Proof.
  unfold Oid.is_valid. now rewrite fromhex_lower, length_lower.
Qed.

Lemma of_str_lower (s : string) : Oid.of_str (Py.lower s) = Oid.of_str s.
Proof.
  unfold Oid.of_str. now rewrite fromhex_lower.
Qed.

(** [PyObjectId.validate] gives an identifier back from its own text.  The
    identifier it makes of a string has for text the characters of the
    string that are not white space, in lower case; it is one of 24 digits,
    as the store assigns them, exactly when the string is made of digits
    only.  Two strings that differ in letter case only validate alike. *)
Theorem validate_text (s : string) :
  (forall o, canonical o -> PyObjectId.validate (VStr (Oid.str o)) = PyObjectId.Valid o) /\
  (forall o, PyObjectId.validate (VStr s) = PyObjectId.Valid o ->
             Oid.str o = Py.lower (digits s) /\
             (canonical o <-> forallb Oid.is_hex (Py.chars s) = true)) /\
  (forall s', Py.lower s = Py.lower s' ->
              PyObjectId.validate (VStr s) = PyObjectId.validate (VStr s')).
Proof.
  split; [|split].
  - intros o [Hv Ho]. unfold PyObjectId.validate. now rewrite Hv, Ho.
  - intros o E. unfold PyObjectId.validate in E.
    destruct (Oid.is_valid s) eqn:Hv; [|discriminate].
    inversion E as [Ho]. clear E.
    pose proof Hv as Hv'. unfold Oid.is_valid in Hv'.
    apply andb_true_iff in Hv'. destruct Hv' as [Hlen Hread].
    apply Nat.eqb_eq in Hlen.
    destruct (Oid.fromhex s) as [bs|] eqn:Hf; [|discriminate].
    assert (Htext : Oid.str (Oid.of_str s) = Py.lower (digits s)).
    { unfold Oid.of_str, Oid.str. simpl. rewrite Hf. exact (proj1 (fromhex_text s Hf)). }
    split; [exact Htext|]. split.
    + intros [Hc _]. unfold Oid.is_valid in Hc.
      apply andb_true_iff in Hc. destruct Hc as [Hc _]. apply Nat.eqb_eq in Hc.
      rewrite Htext, length_lower in Hc. unfold digits in Hc.
      rewrite <- length_chars, chars_text in Hc.
      assert (Hn : forallb (fun a => negb (Oid.is_blank a)) (Py.chars s) = true).
      { apply filter_length_all. rewrite Hc, length_chars. now symmetry. }
      pose proof (fromhex_chars s Hf) as Hall.
      rewrite forallb_forall in *. intros a Ha.
      specialize (Hn a Ha). specialize (Hall a Ha).
      destruct (Oid.is_blank a); [discriminate|]. now rewrite orb_false_r in Hall.
    + intros Hhex.
      assert (Hd : digits s = s).
      { unfold digits. rewrite <- (text_chars s) at 2. f_equal.
        apply forallb_filter_id. rewrite forallb_forall in *. intros a Ha.
        specialize (Hhex a Ha). destruct (Oid.is_blank a) eqn:Hb; [|reflexivity].
        unfold Oid.is_hex in Hhex. now rewrite (blank_not_hex a Hb) in Hhex. }
      rewrite Hd in Htext. unfold canonical. rewrite Htext.
      rewrite is_valid_lower, of_str_lower. auto.
  - intros s' E. unfold PyObjectId.validate.
    rewrite <- (is_valid_lower s), <- (of_str_lower s), E.
    now rewrite is_valid_lower, of_str_lower.
Qed.

(** ** Reading never writes *)

Module Preserves.

Lemma ret_keeps {A} (a : A) : preserves (ret a).
Proof. intros w. reflexivity. Qed.

Lemma raise_ {A} (e : error) : preserves (@raise A e).
Proof. intros w. reflexivity. Qed.

Lemma record_ (c : Call) : preserves (record c).
Proof. intros w. reflexivity. Qed.

Lemma read_store_ : preserves read_store.
Proof. intros w. reflexivity. Qed.

Lemma bind_keeps {A B} (mx : M A) (k : A -> M B) :
  preserves mx -> (forall a, preserves (k a)) -> preserves (bind mx k).
Proof.
  intros Hm Hk w. unfold bind. specialize (Hm w).
  destruct (mx w) as [[a|e] w1]; simpl in *; [|exact Hm].
  now rewrite Hk.
Qed.

Lemma try_keeps {A} (mx h : M A) :
  preserves mx -> preserves h -> preserves (try_except mx h).
Proof.
  intros Hm Hh w. unfold try_except. specialize (Hm w).
  destruct (mx w) as [[a|e] w1]; simpl in *; [exact Hm|].
  now rewrite Hh.
Qed.

Lemma for_each_keeps {A B} (f : A -> M B) (l : list A) :
  (forall x, preserves (f x)) -> preserves (for_each f l).
Proof.
  intros Hf. induction l as [|x l IH]; simpl; [apply ret_keeps|].
  apply bind_keeps; [apply Hf|]. intros y.
  apply bind_keeps; [apply IH|]. intros ys. apply ret_keeps.
Qed.

Lemma for_fold_keeps {A S} (f : S -> A -> M S) (l : list A) :
  (forall s x, preserves (f s x)) -> forall s, preserves (for_fold f s l).
Proof.
  intros Hf. induction l as [|x l IH]; intros s; simpl; [apply ret_keeps|].
  apply bind_keeps; [apply Hf | apply IH].
Qed.

Lemma item_keeps (d : dict) (k : string) : preserves (item d k).
Proof. unfold item. destruct (Dict.get d k); [apply ret_keeps | apply raise_]. Qed.

End Preserves.

Ltac keeps_step :=
  first
    [ apply Preserves.ret_keeps
    | apply Preserves.raise_
    | apply Preserves.record_
    | apply Preserves.read_store_
    | apply Preserves.item_keeps
    | apply Preserves.bind_keeps; [|intros ?]
    | apply Preserves.try_keeps
    | apply Preserves.for_each_keeps; intros ?
    | apply Preserves.for_fold_keeps; intros ? ?
    | match goal with
      | |- preserves (if ?c then _ else _) => destruct c
      | |- preserves (match ?x with _ => _ end) => destruct x
      end
    | progress cbv beta zeta ].

Section ReadOnly.

Context {P : Platform}.

Lemma keeps_run_filter c q : preserves (run_filter c q).
Proof. unfold run_filter. repeat keeps_step. Qed.

Lemma keeps_find c q : preserves (find c q).
Proof. unfold find. repeat keeps_step. Qed.

Lemma keeps_find_one c q : preserves (find_one c q).
Proof. unfold find_one. repeat keeps_step. Qed.

Lemma keeps_count_documents c q : preserves (count_documents c q).
Proof. unfold count_documents. repeat keeps_step. Qed.

Lemma keeps_distinct c key q : preserves (distinct c key q).
Proof. unfold distinct. repeat keeps_step. Qed.

Lemma keeps_get_documents c q limit : preserves (get_documents c q limit).
Proof. unfold get_documents. repeat keeps_step. Qed.

Lemma keeps_query default cap given : preserves (Query default cap given).
Proof. unfold Query. repeat keeps_step. Qed.

Lemma keeps_attach_counts pid d : preserves (attach_counts pid d).
Proof.
  unfold attach_counts, task_count.
  repeat first [apply keeps_count_documents | keeps_step].
Qed.

Ltac keeps :=
  repeat first
    [ apply keeps_find | apply keeps_find_one | apply keeps_count_documents
    | apply keeps_distinct | apply keeps_get_documents | apply keeps_query
    | apply keeps_attach_counts | keeps_step ].

(** The reading endpoints never change the store: whatever [list_projects],
    [get_project], [list_tasks], [list_notes] and [chat_with_projects]
    return, a result or any failure, the three collections are as they were
    before the request. *)
Theorem reading_keeps_store (w : World) :
  (forall status limit, store (snd (list_projects status limit w)) = store w) /\
  (forall project_id, store (snd (get_project project_id w)) = store w) /\
  (forall project_id status limit,
      store (snd (list_tasks project_id status limit w)) = store w) /\
  (forall project_id limit, store (snd (list_notes project_id limit w)) = store w) /\
  (forall payload, store (snd (chat_with_projects payload w)) = store w).
Proof.
  repeat split.
  - intros status limit. revert w. change (preserves (list_projects status limit)).
    unfold list_projects. keeps.
  - intros project_id. revert w. change (preserves (get_project project_id)).
    unfold get_project. keeps.
  - intros project_id status limit. revert w.
    change (preserves (list_tasks project_id status limit)).
    unfold list_tasks. keeps.
  - intros project_id limit. revert w. change (preserves (list_notes project_id limit)).
    unfold list_notes. keeps.
  - intros payload. revert w. change (preserves (chat_with_projects payload)).
    unfold chat_with_projects, collect_matches, fetch_extra, enrich, compose,
      name_or_unnamed.
    keeps.
Qed.

End ReadOnly.

(** ** Creating documents *)

Lemma oid_eqb_neq (a b : ObjectId) : Oid.eqb a b = false <-> a <> b.
Proof.
  rewrite <- oid_eqb_eq. destruct (Oid.eqb a b); split; congruence.
Qed.

Lemma lookup_some (db : Database) (o : ObjectId) (p : Stored Project.t) :
  In p (projects db) -> _id p = o -> exists p', lookup_project db o = Some p'.
Proof.
  intros Hin Hid. unfold lookup_project.
  destruct (List.find _ (projects db)) as [p'|] eqn:E; [now exists p'|].
  apply find_none with (x := p) in E; [|assumption].
  apply oid_eqb_neq in E. contradiction.
Qed.

(** The newly inserted document is the one its identifier finds, when no
    older document has that identifier. *)
Lemma first_by_id {A} (dump : A -> dict) (l : list (Stored A)) (x : Stored A)
      (o : ObjectId) :
  _id x = o ->
  (forall y, In y l -> _id y <> o) ->
  hd_error (filter (fun d => eq_match (VOid o) (Dict.get d "_id"))
                   (map (to_dict dump) (l ++ [x])))
  = Some (to_dict dump x).
Proof.
  intros Hx Hfresh.
  rewrite (select_map (to_dict dump) _ (fun y => Oid.eqb (_id y) o))
    by (intros y; apply by_id_view).
  rewrite filter_app, (filter_none _ l).
  - simpl. now rewrite (proj2 (oid_eqb_eq _ _) Hx).
  - intros y Hy. apply oid_eqb_neq. now apply Hfresh.
Qed.

Section Creating.

Context {P : Platform}.

Lemma find_one_by_id_run c (s : string) (w : World) :
  find_one c (by_id s) w
  = (Ok (hd_error (filter (fun d => eq_match (VOid (Oid.of_str s)) (Dict.get d "_id"))
                          (docs (store w) c))),
     mk_world (store w) (calls w ++ [call_find_one c (by_id s)])%list).
Proof. reflexivity. Qed.

(** On success a create handler inserts exactly the new document, at the
    end of its collection and with the assigned identifier and time, makes
    no other change, and answers with that document serialized.  For a task
    or note this is the case when some project has the identifier that
    [project_id] spells. *)
Theorem create_inserts_one (w : World) (oid : ObjectId) (now : datetime) :
  canonical oid ->
  (forall p : Project.t,
      (forall x, In x (projects (store w)) -> _id x <> oid) ->
      create_project p oid now w
      = (Ok (Some (serialize_dict (project_dict (mk_stored oid p now)))),
         mk_world (mk_db (projects (store w) ++ [mk_stored oid p now])
                         (tasks (store w)) (notes (store w)))
                  (calls w ++ [call_create_document project;
                               call_find_one project (by_id (Oid.str oid))])%list)) /\
  (forall (t : Task.t) (p : Stored Project.t),
      Oid.is_valid (Task.project_id t) = true ->
      In p (projects (store w)) -> _id p = Oid.of_str (Task.project_id t) ->
      (forall x, In x (tasks (store w)) -> _id x <> oid) ->
      create_task t oid now w
      = (Ok (Some (serialize_dict (task_dict (mk_stored oid t now)))),
         mk_world (mk_db (projects (store w))
                         (tasks (store w) ++ [mk_stored oid t now]) (notes (store w)))
                  (calls w ++ [call_find_one project (by_id (Task.project_id t));
                               call_create_document task;
                               call_find_one task (by_id (Oid.str oid))])%list)) /\
  (forall (n : Note.t) (p : Stored Project.t),
      Oid.is_valid (Note.project_id n) = true ->
      In p (projects (store w)) -> _id p = Oid.of_str (Note.project_id n) ->
      (forall x, In x (notes (store w)) -> _id x <> oid) ->
      create_note n oid now w
      = (Ok (Some (serialize_dict (note_dict (mk_stored oid n now)))),
         mk_world (mk_db (projects (store w)) (tasks (store w))
                         (notes (store w) ++ [mk_stored oid n now]))
                  (calls w ++ [call_find_one project (by_id (Note.project_id n));
                               call_create_document note;
                               call_find_one note (by_id (Oid.str oid))])%list)).
Proof.
  intros [_ Hcanon]. split; [|split].
  - intros p Hfresh. unfold create_project, create_document.
    unfold bind, record, read_store, write_store, ret. simpl.
    rewrite Hcanon. unfold project_dict, task_dict, note_dict.
    rewrite (@first_by_id _ Project.model_dump (projects (store w)) (mk_stored oid p now) oid eq_refl Hfresh).
    simpl. now rewrite <- !app_assoc.
  - intros t p Hv Hin Hid Hfresh. unfold create_task. rewrite Hv.
    change (negb true) with false. cbv iota. unfold bind at 1. cbv beta.
    rewrite find_project_run.
    destruct (@lookup_some (store w) _ p Hin Hid) as [p' ->].
    change (is_falsy_doc (option_map project_dict (Some p'))) with false. cbv iota.
    unfold create_document, bind, record, read_store, write_store, ret. simpl.
    rewrite Hcanon. unfold project_dict, task_dict, note_dict.
    rewrite (@first_by_id _ Task.model_dump (tasks (store w)) (mk_stored oid t now) oid eq_refl Hfresh).
    simpl. now rewrite <- !app_assoc.
  - intros n p Hv Hin Hid Hfresh. unfold create_note. rewrite Hv.
    change (negb true) with false. cbv iota. unfold bind at 1. cbv beta.
    rewrite find_project_run.
    destruct (@lookup_some (store w) _ p Hin Hid) as [p' ->].
    change (is_falsy_doc (option_map project_dict (Some p'))) with false. cbv iota.
    unfold create_document, bind, record, read_store, write_store, ret. simpl.
    rewrite Hcanon. unfold project_dict, task_dict, note_dict.
    rewrite (@first_by_id _ Note.model_dump (notes (store w)) (mk_stored oid n now) oid eq_refl Hfresh).
    simpl. now rewrite <- !app_assoc.
Qed.

End Creating.

(** ** A created task shows in the counts of its project *)

Lemma with_counts_fields (db : Database) (pid : string) (d : dict) :
  Dict.get (with_counts db pid d) "task_counts"
  = Some (VDict [("open", VInt (Z.of_nat (List.length (tasks_with db pid "open"))));
                 ("in_progress", VInt (Z.of_nat (List.length (tasks_with db pid "in-progress"))));
                 ("done", VInt (Z.of_nat (List.length (tasks_with db pid "done"))))]) /\
  Dict.get (with_counts db pid d) "notes_count"
  = Some (VInt (Z.of_nat (List.length (notes_of db pid)))).
Proof.
  unfold with_counts. split.
  - rewrite DictFacts.get_set_other by discriminate. apply DictFacts.get_set_same.
  - apply DictFacts.get_set_same.
Qed.

Lemma tasks_with_insert (db : Database) (x : Stored Task.t) (pid status : string) :
  Z.of_nat (List.length (tasks_with (insert_one task x db) pid status))
  = Z.add (Z.of_nat (List.length (tasks_with db pid status)))
          (if (Task.project_id (fields x) =? pid) && (Task.status (fields x) =? status)
           then 1%Z else 0%Z).
Proof.
  unfold tasks_with. simpl tasks. rewrite filter_app, length_app. simpl.
  destruct ((Task.project_id (fields x) =? pid) && (Task.status (fields x) =? status));
    simpl; lia.
Qed.

Section CreateThenRead.

Context {P : Platform}.

Lemma create_task_store (w : World) (oid : ObjectId) (now : datetime) (t : Task.t)
      (p : Stored Project.t) :
  Oid.is_valid (Task.project_id t) = true ->
  lookup_project (store w) (Oid.of_str (Task.project_id t)) = Some p ->
  store (snd (create_task t oid now w)) = insert_one task (mk_stored oid t now) (store w).
Proof.
  intros Hv Hp. unfold create_task. rewrite Hv. simpl.
  unfold bind. rewrite find_project_run, Hp. reflexivity.
Qed.

(** After [create_task] has succeeded for the project that [project_id]
    names, [get_project] with that same text reports the count of the new
    task's status one higher than before, and the other counts and
    [notes_count] as before. *)
Theorem created_task_is_counted (w : World) (oid : ObjectId) (now : datetime)
        (t : Task.t) (p : Stored Project.t) :
  Oid.is_valid (Task.project_id t) = true ->
  lookup_project (store w) (Oid.of_str (Task.project_id t)) = Some p ->
  let bump status := if Task.status t =? status then 1%Z else 0%Z in
  exists d0 d1 n_open n_progress n_done n_notes,
    fst (get_project (Task.project_id t) w) = Ok d0 /\
    fst (get_project (Task.project_id t) (snd (create_task t oid now w))) = Ok d1 /\
    Dict.get d0 "task_counts"
    = Some (VDict [("open", VInt n_open); ("in_progress", VInt n_progress);
                   ("done", VInt n_done)]) /\
    Dict.get d0 "notes_count" = Some (VInt n_notes) /\
    Dict.get d1 "task_counts"
    = Some (VDict [("open", VInt (n_open + bump "open"));
                   ("in_progress", VInt (n_progress + bump "in-progress"));
                   ("done", VInt (n_done + bump "done"))]) /\
    Dict.get d1 "notes_count" = Some (VInt n_notes).
Proof.
  intros Hv Hp bump.
  set (pid := Task.project_id t) in *.
  set (w1 := snd (create_task t oid now w)).
  assert (Hs : store w1 = insert_one task (mk_stored oid t now) (store w))
    by (eapply create_task_store; eauto).
  assert (Hp1 : lookup_project (store w1) (Oid.of_str pid) = Some p)
    by (rewrite Hs; exact Hp).
  destruct (@returns_get_project P (store w) pid p Hv Hp w eq_refl) as [cs0 E0].
  destruct (@returns_get_project P (store w1) pid p Hv Hp1 w1 eq_refl) as [cs1 E1].
  do 6 eexists. rewrite E0, E1. simpl fst.
  split; [reflexivity|]. split; [reflexivity|].
  destruct (with_counts_fields (store w) pid (serialize_dict (project_dict p))) as [Hc0 Hn0].
  destruct (with_counts_fields (store w1) pid (serialize_dict (project_dict p))) as [Hc1 Hn1].
  split; [exact Hc0|]. split; [exact Hn0|]. split.
  - rewrite Hc1, Hs, !tasks_with_insert. simpl fields. subst pid bump.
    rewrite String.eqb_refl. reflexivity.
  - rewrite Hn1, Hs. reflexivity.
Qed.

End CreateThenRead.

(** ** The calls a handler makes *)

Module Performs.

Lemma ret_calls db {A} (a : A) : performs db (ret a) a [].
Proof.
  intros [db' cs] E. simpl in E. subst db'. unfold ret. simpl. now rewrite app_nil_r.
Qed.

Lemma bind_calls db {A B} (mx : M A) (k : A -> M B) a b cs1 cs2 :
  performs db mx a cs1 -> performs db (k a) b cs2 ->
  performs db (bind mx k) b (cs1 ++ cs2)%list.
Proof.
  intros Hm Hk w E. unfold bind. rewrite (Hm w E).
  rewrite (Hk (mk_world db (calls w ++ cs1)%list) eq_refl). simpl.
  now rewrite app_assoc.
Qed.

Lemma bind_one db {A B} (mx : M A) (k : A -> M B) a b c cs :
  performs db mx a [c] -> performs db (k a) b cs ->
  performs db (bind mx k) b (c :: cs).
Proof. intros Hm Hk. exact (@bind_calls db A B mx k a b [c] cs Hm Hk). Qed.

Lemma bind_quiet db {A B} (mx : M A) (k : A -> M B) a b cs :
  performs db mx a [] -> performs db (k a) b cs ->
  performs db (bind mx k) b cs.
Proof. intros Hm Hk. exact (@bind_calls db A B mx k a b [] cs Hm Hk). Qed.

Lemma for_each_calls db {A B} (f : A -> M B) (g : A -> B) (c : A -> list Call) (l : list A) :
  (forall x, performs db (f x) (g x) (c x)) ->
  performs db (for_each f l) (map g l) (flat_map c l).
Proof.
  intros Hf. induction l as [|x l IH]; simpl; [apply ret_calls|].
  replace (c x ++ flat_map c l)%list with (c x ++ (flat_map c l ++ []))%list
    by now rewrite app_nil_r.
  eapply bind_calls; [apply Hf|]. eapply bind_calls; [apply IH | apply ret_calls].
Qed.

Lemma item_calls db (d : dict) (k : string) (v : value) :
  Dict.get d k = Some v -> performs db (item d k) v [].
Proof. intros E. unfold item. rewrite E. apply ret_calls. Qed.

(** The outcome of a run, read off [performs]. *)
Lemma run {A} (mx : M A) (w : World) a cs :
  performs (store w) mx a cs ->
  mx w = (Ok a, mk_world (store w) (calls w ++ cs)%list).
Proof. intros H. now apply H. Qed.

End Performs.

Section CallPatterns.

Context {P : Platform}.

Variable db : Database.

Lemma performs_count_documents c q p :
  compile q = Some p ->
  performs db (count_documents c q) (Z.of_nat (List.length (filter p (docs db c))))
           [call_count_documents c q].
Proof.
  intros Hc w <-. unfold count_documents, run_filter, bind, record, read_store, ret.
  simpl. now rewrite Hc.
Qed.

Lemma performs_get_documents c q limit p :
  compile q = Some p ->
  performs db (get_documents c q limit)
           (firstn (Z.to_nat limit) (filter p (docs db c)))
           [call_get_documents c q limit].
Proof.
  intros Hc w <-. unfold get_documents, run_filter, bind, record, read_store, ret.
  simpl. now rewrite Hc.
Qed.

Lemma performs_find_project (s : string) :
  performs db (find_one project (by_id s))
           (option_map project_dict (lookup_project db (Oid.of_str s)))
           [call_find_one project (by_id s)].
Proof. intros w <-. apply find_project_run. Qed.

Lemma performs_task_count (pid status : string) :
  performs db (task_count (VStr pid) status)
           (Z.of_nat (List.length (tasks_with db pid status)))
           [call_count_documents task
              (And [Field "project_id" (CEq (VStr pid)); eq_str "status" status])].
Proof.
  unfold tasks_with, task_count.
  rewrite <- (length_map task_dict).
  rewrite <- (select_map task_dict (by_project_status pid status))
    by (intros t; apply task_status_view).
  now apply performs_count_documents.
Qed.

Lemma performs_notes_count (pid : string) :
  performs db (count_documents note (And [Field "project_id" (CEq (VStr pid))]))
           (Z.of_nat (List.length (notes_of db pid)))
           [call_count_documents note (And [Field "project_id" (CEq (VStr pid))])].
Proof.
  unfold notes_of.
  rewrite <- (length_map note_dict).
  rewrite <- (select_map note_dict (by_project pid))
    by (intros n; apply note_project_view).
  now apply performs_count_documents.
Qed.

Lemma performs_attach_counts (pid : string) (d : dict) :
  performs db (attach_counts (VStr pid) d) (with_counts db pid d) (count_calls pid).
Proof.
  unfold attach_counts, with_counts, count_calls.
  eapply Performs.bind_one; [apply performs_task_count|].
  eapply Performs.bind_one; [apply performs_task_count|].
  eapply Performs.bind_one; [apply performs_task_count|].
  eapply Performs.bind_one; [apply performs_notes_count|].
  apply Performs.ret_calls.
Qed.

(** The filter that [list_projects] builds, as a test on the models. *)
Lemma status_filter_view (status : option string) :
  exists p,
    compile (match given_str status with
             | Some s => And [eq_str "status" s]
             | None => And []
             end) = Some p /\
    forall x, p (project_dict x) = status_is status x.
Proof.
  unfold status_is. destruct (given_str status) as [s|].
  - eexists. split; [reflexivity|]. intros x. cbn. now rewrite andb_true_r.
  - eexists. split; [reflexivity|]. reflexivity.
Qed.

Lemma performs_list_projects (status : option string) (given : option Z) (l : Z) :
  effective_limit 100 500 given l ->
  let ps := firstn (Z.to_nat l) (filter (status_is status) (projects db)) in
  exists filt,
    performs db (list_projects status given)
             (map (listed_project db) ps)
             (call_get_documents project filt l
                :: flat_map (fun p => count_calls (project_key p)) ps).
Proof.
  intros Hl ps. destruct (status_filter_view status) as (p & Hc & Hview).
  eexists. unfold list_projects.
  assert (Hq : Query 100 500 given = ret l).
  { unfold effective_limit in Hl. destruct given as [v|].
    - destruct Hl as [-> Hv]. now apply query_within.
    - now subst l. }
  rewrite Hq.
  eapply Performs.bind_quiet; [apply Performs.ret_calls|].
  eapply Performs.bind_one; [apply performs_get_documents, Hc|].
  simpl docs. rewrite (select_map project_dict p (status_is status) _ Hview), firstn_map.
  fold ps.
  replace (flat_map (fun p0 => count_calls (project_key p0)) ps)
    with (flat_map (fun p0 => count_calls (project_key p0)) ps ++ [])%list
    by apply app_nil_r.
  eapply Performs.bind_calls.
  - rewrite Returns.for_each_map.
    apply Performs.for_each_calls with
      (g := fun x => with_counts db (project_key x)
                       (Dict.set (project_dict x) "_id" (VStr (project_key x)))).
    intros x.
    eapply Performs.bind_quiet; [apply Performs.item_calls; reflexivity|].
    eapply Performs.bind_quiet;
      [apply Performs.item_calls, DictFacts.get_set_same|].
    apply performs_attach_counts.
  - rewrite map_map. apply Performs.ret_calls.
Qed.

Lemma performs_get_project (s : string) (p : Stored Project.t) :
  Oid.is_valid s = true ->
  lookup_project db (Oid.of_str s) = Some p ->
  performs db (get_project s) (with_counts db s (serialize_dict (project_dict p)))
           (call_find_one project (by_id s) :: count_calls s).
Proof.
  intros Hv Hp. unfold get_project. rewrite Hv. simpl negb. cbv iota.
  eapply Performs.bind_one; [apply performs_find_project|].
  rewrite Hp. simpl. apply performs_attach_counts.
Qed.

End CallPatterns.

(** ** What the list endpoints answer *)

Lemma listed_project_fields (db : Database) (p : Stored Project.t) :
  Dict.get (listed_project db p) "_id" = Some (VStr (project_key p)) /\
  Dict.get (listed_project db p) "task_counts"
  = Some (VDict [("open", VInt (Z.of_nat (List.length (tasks_with db (project_key p) "open"))));
                 ("in_progress",
                  VInt (Z.of_nat (List.length (tasks_with db (project_key p) "in-progress"))));
                 ("done", VInt (Z.of_nat (List.length (tasks_with db (project_key p) "done"))))]) /\
  Dict.get (listed_project db p) "notes_count"
  = Some (VInt (Z.of_nat (List.length (notes_of db (project_key p))))) /\
  Dict.get (listed_project db p) "name" = Some (VStr (Project.name (fields p))).
Proof.
  unfold listed_project. fold (project_key p).
  set (x := Dict.set (project_dict p) "_id" (VStr (project_key p))).
  destruct (with_counts_fields db (project_key p) x) as [Hc Hn].
  assert (Hid : Dict.get (with_counts db (project_key p) x) "_id"
                = Some (VStr (project_key p))).
  { unfold with_counts. rewrite !DictFacts.get_set_other by discriminate.
    apply DictFacts.get_set_same. }
  split; [|split; [|split]].
  - pose proof (serialize_dict_id_cases (with_counts db (project_key p) x)) as H.
    rewrite Hid in H. destruct (truthy (VStr (project_key p))); exact H.
  - now rewrite serialize_dict_other, Hc by discriminate.
  - now rewrite serialize_dict_other, Hn by discriminate.
  - rewrite serialize_dict_other by discriminate. unfold with_counts, x.
    now rewrite !DictFacts.get_set_other by discriminate.
Qed.

Section ListAnswers.

Context {P : Platform}.

(** [list_projects] answers with the first [limit] projects of the
    requested status, in store order; each carries its identifier as text,
    its name, and the numbers of open, in-progress and done tasks and of
    notes whose [project_id] is that text. *)
Theorem list_projects_answer (w : World) (status : option string)
        (given : option Z) (l : Z) :
  effective_limit 100 500 given l ->
  let db := store w in
  let ps := firstn (Z.to_nat l) (filter (status_is status) (projects db)) in
  fst (list_projects status given w) = Ok (map (listed_project db) ps) /\
  (forall p, In p ps -> In p (projects db) /\ status_is status p = true) /\
  (forall p,
      Dict.get (listed_project db p) "_id" = Some (VStr (project_key p)) /\
      Dict.get (listed_project db p) "task_counts"
      = Some (VDict [("open", VInt (Z.of_nat (List.length (tasks_with db (project_key p) "open"))));
                     ("in_progress",
                      VInt (Z.of_nat (List.length (tasks_with db (project_key p) "in-progress"))));
                     ("done",
                      VInt (Z.of_nat (List.length (tasks_with db (project_key p) "done"))))]) /\
      Dict.get (listed_project db p) "notes_count"
      = Some (VInt (Z.of_nat (List.length (notes_of db (project_key p))))) /\
      Dict.get (listed_project db p) "name" = Some (VStr (Project.name (fields p)))).
Proof.
  intros Hl db ps.
  destruct (@performs_list_projects P db status given l Hl) as [filt H].
  split; [|split].
  - now rewrite (H w eq_refl).
  - intros p Hp. apply firstn_In, filter_In in Hp. exact Hp.
  - intros p. apply listed_project_fields.
Qed.

(** [list_projects] makes one fetch and then, for every project it lists
    and in their order, three task counts and one note count;
    [get_project] makes one lookup and the same four counts. *)
Theorem counting_calls (w : World) :
  (forall status given l,
      effective_limit 100 500 given l ->
      exists filt,
        calls (snd (list_projects status given w))
        = (calls w ++ call_get_documents project filt l
             :: flat_map (fun p => count_calls (project_key p))
                  (firstn (Z.to_nat l)
                          (filter (status_is status) (projects (store w)))))%list) /\
  (forall s p,
      Oid.is_valid s = true ->
      lookup_project (store w) (Oid.of_str s) = Some p ->
      calls (snd (get_project s w))
      = (calls w ++ call_find_one project (by_id s) :: count_calls s)%list).
Proof.
  split.
  - intros status given l Hl.
    destruct (@performs_list_projects P (store w) status given l Hl) as [filt H].
    exists filt. now rewrite (H w eq_refl).
  - intros s p Hv Hp.
    now rewrite (@performs_get_project P (store w) s p Hv Hp w eq_refl).
Qed.

Lemma listed_like_read (db : Database) (p : Stored Project.t) :
  with_counts db (project_key p) (serialize_dict (project_dict p)) = listed_project db p.
Proof.
  destruct p as [[h] f c]. destruct f as [n d st ow sd ed pr pri tg].
  unfold listed_project, serialize_dict, project_key, Oid.str. cbn.
  destruct (h =? ""); destruct d, ow, sd, ed, pri; reflexivity.
Qed.

(** Asked with the identifier text that [list_projects] hands out for a
    project, [get_project] answers with the very document that
    [list_projects] lists for it. *)
Theorem get_project_as_listed (w : World) (p : Stored Project.t) :
  Oid.is_valid (project_key p) = true ->
  lookup_project (store w) (Oid.of_str (project_key p)) = Some p ->
  fst (get_project (project_key p) w) = Ok (listed_project (store w) p).
Proof.
  intros Hv Hp.
  rewrite (@performs_get_project P (store w) _ p Hv Hp w eq_refl). simpl.
  now rewrite listed_like_read.
Qed.

Lemma task_filter_view (project_id status : option string) :
  exists p,
    compile (And (match given_str status with
                  | Some s =>
                      (match given_str project_id with
                       | Some s0 => ([] ++ [eq_str "project_id" s0])%list
                       | None => []
                       end ++ [eq_str "status" s])%list
                  | None =>
                      match given_str project_id with
                      | Some s0 => ([] ++ [eq_str "project_id" s0])%list
                      | None => []
                      end
                  end)) = Some p /\
    forall x, p (task_dict x) = task_selected project_id status x.
Proof.
  unfold task_selected.
  destruct (given_str status) as [s|], (given_str project_id) as [s0|];
    eexists; (split; [reflexivity|]); intros x; cbn;
    rewrite ?andb_true_r; reflexivity.
Qed.

Lemma note_filter_view (project_id : option string) :
  exists p,
    compile (match given_str project_id with
             | Some s => And [eq_str "project_id" s]
             | None => And []
             end) = Some p /\
    forall x, p (note_dict x) = note_selected project_id x.
Proof.
  unfold note_selected.
  destruct (given_str project_id) as [s|];
    eexists; (split; [reflexivity|]); intros x; cbn;
    rewrite ?andb_true_r; reflexivity.
Qed.

(** [list_tasks] and [list_notes] answer with the first [limit] stored
    tasks (notes) that have the requested [project_id] and status, in store
    order and serialized; a parameter that is absent or the empty string
    selects nothing out. *)
Theorem list_tasks_notes_answer (w : World) (given : option Z) (l : Z) :
  effective_limit 200 1000 given l ->
  (forall project_id status,
      fst (list_tasks project_id status given w)
      = Ok (map serialize_dict
                (map task_dict
                     (firstn (Z.to_nat l)
                             (filter (task_selected project_id status) (tasks (store w))))))) /\
  (forall project_id,
      fst (list_notes project_id given w)
      = Ok (map serialize_dict
                (map note_dict
                     (firstn (Z.to_nat l)
                             (filter (note_selected project_id) (notes (store w))))))) /\
  (forall status t, task_selected (Some "") status t = task_selected None status t) /\
  (forall project_id t, task_selected project_id (Some "") t = task_selected project_id None t) /\
  (forall n, note_selected (Some "") n = note_selected None n).
Proof.
  intros Hl.
  assert (Hq : Query 200 1000 given = ret l).
  { unfold effective_limit in Hl. destruct given as [v|].
    - destruct Hl as [-> Hv]. now apply query_within.
    - now subst l. }
  split; [|split; [|repeat split]].
  - intros project_id status. unfold list_tasks. rewrite Hq.
    unfold bind at 1, ret at 1. unfold bind, ret.
    destruct (task_filter_view project_id status) as (p & Hc & Hview).
    rewrite (@get_documents_run P task _ l p w Hc). simpl.
    now rewrite (select_map task_dict p _ _ Hview), firstn_map.
  - intros project_id. unfold list_notes. rewrite Hq.
    unfold bind at 1, ret at 1. unfold bind, ret.
    destruct (note_filter_view project_id) as (p & Hc & Hview).
    rewrite (@get_documents_run P note _ l p w Hc). simpl.
    now rewrite (select_map note_dict p _ _ Hview), firstn_map.
Qed.

End ListAnswers.

(** ** Which tasks and notes a related project carries *)

Lemma lex_step (x y z : nat) (r1 r2 r3 : comparison) :
  (r1 <> Gt -> r2 <> Gt -> r3 <> Gt) ->
  Datetime.lex (Nat.compare x y) r1 <> Gt ->
  Datetime.lex (Nat.compare y z) r2 <> Gt ->
  Datetime.lex (Nat.compare x z) r3 <> Gt.
Proof.
  intros Hr.
  destruct (Nat.compare_spec x y), (Nat.compare_spec y z); subst; simpl;
    try congruence; intros H1 H2.
  - rewrite Nat.compare_refl. simpl. auto.
  - rewrite (proj2 (Nat.compare_lt_iff _ _)) by lia. discriminate.
  - rewrite (proj2 (Nat.compare_lt_iff _ _)) by lia. discriminate.
  - rewrite (proj2 (Nat.compare_lt_iff _ _)) by lia. discriminate.
Qed.

Lemma compare_step (x y z : nat) :
  Nat.compare x y <> Gt -> Nat.compare y z <> Gt -> Nat.compare x z <> Gt.
Proof.
  rewrite !Nat.compare_gt_iff. lia.
Qed.

Lemma datetime_leb_trans (a b c : datetime) :
  Datetime.leb a b = true -> Datetime.leb b c = true -> Datetime.leb a c = true.
Proof.
  assert (E : forall x y, Datetime.leb x y = true <-> Datetime.compare x y <> Gt).
  { intros x y. unfold Datetime.leb. destruct (Datetime.compare x y); split; congruence. }
  rewrite !E. unfold Datetime.compare.
  repeat (apply lex_step). apply compare_step.
Qed.

Section TopOfSorted.

Variable A : Type.
Variable key : A -> option datetime.

Hypothesis key_total :
  forall a b, key_leb (key a) (key b) = false -> key_leb (key b) (key a) = true.
Hypothesis key_trans :
  forall a b c, key_leb (key a) (key b) = true -> key_leb (key b) (key c) = true ->
                key_leb (key a) (key c) = true.

Lemma insert_desc_length (x : A) (l : list A) :
  List.length (insert_desc key x l) = S (List.length l).
Proof.
  induction l as [|y l IH]; simpl; [reflexivity|].
  destruct (key_leb (key y) (key x)); simpl; [reflexivity | now rewrite IH].
Qed.

Lemma sort_desc_length (l : list A) : List.length (sort_desc key l) = List.length l.
Proof.
  unfold sort_desc. induction l as [|x l IH]; simpl; [reflexivity|].
  now rewrite insert_desc_length, IH.
Qed.

Lemma strongly_sorted_split (R : A -> A -> Prop) (l1 l2 : list A) :
  StronglySorted R (l1 ++ l2) -> forall x y, In x l1 -> In y l2 -> R x y.
Proof.
  induction l1 as [|a l1 IH]; simpl; intros H x y Hx Hy; [contradiction|].
  apply StronglySorted_inv in H. destruct H as [Hs Hall].
  destruct Hx as [<- | Hx].
  - rewrite Forall_forall in Hall. apply Hall, in_or_app. now right.
  - now apply IH.
Qed.

(** Whatever the first [n] of the sorted list leave out is not later than
    anything they hold. *)
Lemma sorted_prefix_dominates (n : nat) (l : list A) (x y : A) :
  In x (firstn n (sort_desc key l)) ->
  In y l -> ~ In y (firstn n (sort_desc key l)) ->
  key_leb (key y) (key x) = true.
Proof.
  intros Hx Hy Hout.
  assert (Hs : StronglySorted (later_first key) (sort_desc key l)).
  { apply Sorted_StronglySorted; [|now apply sort_desc_Sorted].
    intros a b c Hab Hbc. unfold later_first in *. eapply key_trans; eauto. }
  rewrite <- (firstn_skipn n (sort_desc key l)) in Hs.
  change (later_first key x y).
  eapply strongly_sorted_split; [exact Hs | exact Hx |].
  apply (proj2 (sort_desc_In key y l)) in Hy.
  rewrite <- (firstn_skipn n (sort_desc key l)) in Hy.
  apply in_app_or in Hy. tauto.
Qed.

End TopOfSorted.

Section Enriching.

Context {P : Platform}.

(** The entry that the chat builds for a project carries, under
    [open_tasks], the first five of the project's open or in-progress tasks
    in store order, all of them when there are five or fewer; and, under
    [recent_notes], three of its notes (all when there are three or fewer),
    latest first, such that no note left out is later than a note shown. *)
Theorem enrich_selection (w : World) (p : Stored Project.t) :
  let db := store w in
  let pid := project_key p in
  exists e w' ts ns,
    enrich (project_dict p) w = (Ok e, w') /\
    Dict.get e "open_tasks" = Some (as_docs (map serialize_dict (map task_dict ts))) /\
    ts = firstn 5 (all_open_tasks db pid) /\
    (List.length (all_open_tasks db pid) <= 5 -> ts = all_open_tasks db pid) /\
    Dict.get e "recent_notes" = Some (as_docs (map serialize_dict (map note_dict ns))) /\
    List.length ns = Nat.min 3 (List.length (notes_of db pid)) /\
    (forall n, In n ns -> In n (notes_of db pid)) /\
    (forall n r, In n (notes_of db pid) -> ~ In n ns -> In r ns -> not_later n r).
Proof.
  intros db pid.
  destruct (@returns_enrich P db p w eq_refl) as [cs E].
  exists (related_entry db p), (mk_world db (calls w ++ cs)%list),
         (open_tasks_of db pid), (recent_notes_of db pid).
  split; [exact E|].
  split; [apply related_entry_open_tasks|].
  split; [reflexivity|].
  split; [intros Hle; unfold open_tasks_of; now apply firstn_all2|].
  split; [apply related_entry_recent_notes|].
  unfold recent_notes_of.
  split; [now rewrite length_firstn, sort_desc_length|].
  split.
  - intros n Hn. now apply firstn_In, sort_desc_In in Hn.
  - intros n r Hn Hout Hr. unfold not_later.
    apply sorted_prefix_dominates
      with (key := fun x : Stored Note.t => Some (created_at x)) (n := 3)
           (l := notes_of db pid) (x := r) (y := n); try assumption.
    + intros a b. simpl. apply datetime_leb_total.
    + intros a b c. simpl. apply datetime_leb_trans.
Qed.

End Enriching.

(** ** How a chat request ends, and what the reply says *)

Section ChatOutcome.

Context {P : Platform}.

Lemma names_run (l : list dict) (w : World) :
  for_each name_or_unnamed l w
  = if forallb name_is_text l then (Ok (map display_name l), w) else (Err TypeError, w).
Proof.
  induction l as [|e l IH]; simpl; [reflexivity|].
  unfold bind, name_or_unnamed, name_is_text, display_name in *.
  destruct (Dict.get e "name") as [v|]; simpl.
  - destruct v; simpl; try reflexivity.
    rewrite IH. now destruct (forallb _ l).
  - rewrite IH. now destruct (forallb _ l).
Qed.

(** The reply of a chat that found projects states how many there are and
    names the first five, a project without a name as "Unnamed"; it makes no
    call to the store.  A name that is present and is not text, among the
    first five, fails the request with a [TypeError]. *)
Theorem compose_reply (related : list dict) (w : World) :
  related <> [] ->
  (forallb name_is_text (firstn 5 related) = true ->
   compose related w
   = (Ok (mk_response
            (found_reply (List.length related) (map display_name (firstn 5 related)))
            related), w)) /\
  (forallb name_is_text (firstn 5 related) = false ->
   compose related w = (Err TypeError, w)).
Proof.
  intros Hne. destruct related as [|e es]; [contradiction|].
  unfold compose, bind. rewrite names_run.
  split; intros ->; reflexivity.
Qed.

(** A chat request with a query that is not empty is answered whenever the
    store accepts the query as a pattern, whatever the tasks and notes
    hold; when the store rejects it the request fails at the first search,
    the only call made. *)
Theorem chat_outcome (payload : ChatRequest) (w : World) :
  normalize payload <> "" ->
  (forall m, regex_search (normalize payload) = Some m ->
             exists resp cs,
               chat_with_projects payload w
               = (Ok resp, mk_world (store w) (calls w ++ cs)%list)) /\
  (regex_search (normalize payload) = None ->
   chat_with_projects payload w
   = (Err OperationFailure,
      mk_world (store w)
               (calls w ++ [call_find project (project_filter (normalize payload))])%list)).
Proof.
  intros Hq. split.
  - intros m Hm.
    destruct (@returns_chat P (store w) _ m Hm payload eq_refl Hq w eq_refl) as [cs E].
    now exists (answer (store w) m), cs.
  - intros Hm. unfold chat_with_projects.
    destruct (String.eqb_spec (normalize payload) ""); [contradiction|].
    unfold bind, collect_matches, find, run_filter, bind, record, read_store.
    simpl. now rewrite Hm.
Qed.

End ChatOutcome.

(** ** The self-check endpoint *)

(** *** The characters of a text *)

Lemma segmented_tail g gs : segmented (g :: gs) -> group g /\ segmented gs.
Proof.
  intros H. inversion H; subst; split; auto using seg_nil.
Qed.

Lemma segmented_head (g g' : string) gs :
  group g -> segmented (g' :: gs) -> segmented (g :: gs).
Proof.
  intros Hg H. inversion H; subst; [apply seg_one | apply seg_cons]; assumption.
Qed.

Lemma points_segmented (s : string) : segmented (Py.points s).
Proof.
  induction s as [|a s IH]; simpl; [apply seg_nil|].
  destruct (Py.points s) as [|[|b p] ps].
  - now apply seg_one.
  - apply segmented_tail in IH. destruct IH as [[] _].
  - destruct (Py.is_cont b) eqn:Hb.
    + apply (@segmented_head _ (String b p)); [|exact IH].
      apply segmented_tail in IH. destruct IH as [Hg _].
      simpl in *. now rewrite Hb.
    + apply seg_cons; [reflexivity | exact Hb | exact IH].
Qed.

Lemma segmented_firstn (n : nat) gs : segmented gs -> segmented (firstn n gs).
Proof.
  intros H. revert n. induction H as [|g Hg|g g' gs Hg Hs H IH]; intros n.
  - rewrite firstn_nil. apply seg_nil.
  - destruct n as [|n]; [apply seg_nil|]. simpl. rewrite firstn_nil. now apply seg_one.
  - destruct n as [|[|n]]; [apply seg_nil | now apply seg_one |].
    specialize (IH (S n)). change (firstn (S (S n)) (g :: g' :: gs))
      with (g :: firstn (S n) (g' :: gs)).
    simpl firstn in *. now apply seg_cons.
Qed.

Lemma points_group (t : string) : forall a,
  forallb Py.is_cont (Py.chars t) = true -> Py.points (String a t) = [String a t].
Proof.
  induction t as [|b t IH]; intros a H; [reflexivity|].
  simpl in H. apply andb_true_iff in H. destruct H as [Hb Ht].
  change (Py.points (String a (String b t)))
    with (match Py.points (String b t) with
          | String b' p :: ps =>
              if Py.is_cont b' then String a (String b' p) :: ps
              else String a "" :: String b' p :: ps
          | ps => String a "" :: ps
          end).
  rewrite (IH b Ht), Hb. reflexivity.
Qed.

Lemma points_before (t r g' : string) gs : forall a,
  forallb Py.is_cont (Py.chars t) = true ->
  starts g' -> Py.points r = g' :: gs ->
  Py.points (String a t ++ r) = String a t :: g' :: gs.
Proof.
  induction t as [|b t IH]; intros a H Hs Hr.
  - simpl. rewrite Hr. destruct g' as [|c p]; [destruct Hs|].
    simpl in Hs. now rewrite Hs.
  - simpl in H. apply andb_true_iff in H. destruct H as [Hb Ht].
    change (Py.points (String a (String b t) ++ r))
      with (match Py.points (String b t ++ r) with
            | String b' p :: ps =>
                if Py.is_cont b' then String a (String b' p) :: ps
                else String a "" :: String b' p :: ps
            | ps => String a "" :: ps
            end).
    rewrite (IH b Ht Hs Hr), Hb. reflexivity.
Qed.

Lemma points_concat gs : segmented gs -> Py.points (concat "" gs) = gs.
Proof.
  induction 1 as [|g Hg|g g' gs Hg Hs H IH]; [reflexivity| |].
  - destruct g as [|a t]; [destruct Hg|]. now apply points_group.
  - destruct g as [|a t]; [destruct Hg|].
    change (concat "" (String a t :: g' :: gs))
      with (String a t ++ "" ++ concat "" (g' :: gs)).
    change ("" ++ concat "" (g' :: gs)) with (concat "" (g' :: gs)).
    now apply points_before.
Qed.

Lemma concat_cons (g : string) gs : concat "" (g :: gs) = g ++ concat "" gs.
Proof.
  destruct gs; simpl; [|reflexivity].
  induction g as [|a g IH]; simpl; [reflexivity | now rewrite <- IH].
Qed.

Lemma append_assoc (a b c : string) : (a ++ b) ++ c = a ++ (b ++ c).
Proof. induction a as [|x a IH]; simpl; [reflexivity | now rewrite IH]. Qed.

Lemma concat_join gs gs' : concat "" (gs ++ gs') = concat "" gs ++ concat "" gs'.
Proof.
  induction gs as [|g gs IH]; [reflexivity|].
  change ((g :: gs) ++ gs')%list with (g :: (gs ++ gs'))%list.
  rewrite !concat_cons, IH. now rewrite append_assoc.
Qed.

Lemma concat_points (s : string) : concat "" (Py.points s) = s.
Proof.
  induction s as [|a s IH]; [reflexivity|]. simpl Py.points.
  destruct (Py.points s) as [|[|b p] ps].
  - simpl in *. now rewrite <- IH.
  - rewrite concat_cons, IH. reflexivity.
  - destruct (Py.is_cont b).
    + rewrite concat_cons in *. simpl in *. now rewrite IH.
    + rewrite concat_cons, IH. reflexivity.
Qed.

(** [s[:n]] has the first [n] characters of [s] for characters, is the
    start of [s], and is [s] when [s] has no more than [n] characters. *)
Lemma slice_to_facts (n : nat) (s : string) :
  Py.points (Py.slice_to n s) = firstn n (Py.points s) /\
  (exists rest, s = Py.slice_to n s ++ rest) /\
  (Py.len s <= n -> Py.slice_to n s = s).
Proof.
  unfold Py.slice_to, Py.len. split; [|split].
  - apply points_concat, segmented_firstn, points_segmented.
  - exists (concat "" (skipn n (Py.points s))).
    now rewrite <- concat_join, firstn_skipn, concat_points.
  - intros H. rewrite firstn_all2 by exact H. apply concat_points.
Qed.

(** [test_database] reports at most ten collections, the first ten the
    handle lists and in its order; without a handle it reports none, says
    "Not Connected" and leaves [database_url] unset whatever the
    environment holds; and of a failure to list the collections it shows
    the first fifty characters of the error text, the whole text when it
    has fifty characters or fewer, the connection being reported all the
    same. *)
Theorem test_database_report (env : SelfCheck.surroundings) :
  let r := SelfCheck.test_database env in
  (exists names,
      Dict.get r "collections" = Some (VList (map VStr names)) /\
      List.length names <= 10 /\
      (forall h all, SelfCheck.db_handle env = Some h ->
                     SelfCheck.list_collection_names h = inl all ->
                     names = firstn 10 all)) /\
  (SelfCheck.db_handle env = None ->
   Dict.get r "collections" = Some (VList []) /\
   Dict.get r "connection_status" = Some (VStr "Not Connected") /\
   Dict.get r "database_url" = Some VNone) /\
  (forall h e, SelfCheck.db_handle env = Some h ->
               SelfCheck.list_collection_names h = inr e ->
               exists shown,
                 Dict.get r "database" = Some (VStr ("⚠️ Connected but Error: " ++ shown)) /\
                 Py.points shown = firstn 50 (Py.points e) /\
                 (exists rest, e = shown ++ rest) /\
                 (Py.len e <= 50 -> shown = e) /\
                 Dict.get r "connection_status" = Some (VStr "Connected")).
Proof.
  intros r. subst r. unfold SelfCheck.test_database.
  destruct env as [[h|] url]; simpl SelfCheck.db_handle; cbv iota.
  - destruct h as [name [all|e]]; simpl SelfCheck.list_collection_names; cbv iota.
    + split; [|split].
      * exists (firstn 10 all). split; [reflexivity|].
        split; [rewrite length_firstn; lia|].
        intros h all' Hh Hl. inversion Hh; subst. simpl in Hl. now inversion Hl.
      * discriminate.
      * intros h e Hh Hl. inversion Hh; subst. discriminate.
    + split; [|split].
      * exists []. split; [reflexivity|]. split; [simpl; lia|].
        intros h all Hh Hl. inversion Hh; subst. discriminate.
      * discriminate.
      * intros h e' Hh Hl. inversion Hh; subst. simpl in Hl. inversion Hl; subst.
        exists (Py.slice_to 50 e'). split; [reflexivity|].
        destruct (slice_to_facts 50 e') as (Hp & Hr & Hw).
        repeat split; assumption.
  - split; [|split].
    + exists []. split; [reflexivity|]. split; [simpl; lia|]. discriminate.
    + intros _. repeat split.
    + discriminate.
Qed.

(** ** The further properties on the sample stores *)

Module MoreExamples.

Import Sample.

Lemma create_inserts_one_witness :
  @create_task insertion_order planned_task (mk_oid pB) t2 w_site
  = (Ok (Some (serialize_dict (task_dict (mk_stored (mk_oid pB) planned_task t2)))),
     mk_world (mk_db (projects db_site)
                     (tasks db_site ++ [mk_stored (mk_oid pB) planned_task t2])
                     (notes db_site))
              [call_find_one project (by_id pA);
               call_create_document task;
               call_find_one task (by_id pB)]).
Proof.
  assert (Hc : canonical (mk_oid pB)) by (split; reflexivity).
  apply (proj1 (proj2 (@create_inserts_one insertion_order w_site (mk_oid pB) t2 Hc))
               planned_task site_project).
  - reflexivity.
  - left. reflexivity.
  - reflexivity.
  - intros x Hx. simpl in Hx. destruct Hx as [<- | [<- | []]]; discriminate.
Defined.

Lemma created_task_is_counted_witness :
  exists d0 d1 n_open n_progress n_done n_notes,
    fst (@get_project insertion_order pA w_site) = Ok d0 /\
    fst (@get_project insertion_order pA
           (snd (@create_task insertion_order planned_task (mk_oid pB) t2 w_site))) = Ok d1 /\
    Dict.get d0 "task_counts"
    = Some (VDict [("open", VInt n_open); ("in_progress", VInt n_progress);
                   ("done", VInt n_done)]) /\
    Dict.get d0 "notes_count" = Some (VInt n_notes) /\
    Dict.get d1 "task_counts"
    = Some (VDict [("open", VInt (n_open + 1)); ("in_progress", VInt (n_progress + 0));
                   ("done", VInt (n_done + 0))]) /\
    Dict.get d1 "notes_count" = Some (VInt n_notes).
Proof.
  apply (@created_task_is_counted insertion_order w_site (mk_oid pB) t2 planned_task
           site_project); reflexivity.
Defined.

Lemma list_projects_answer_witness :
  fst (@list_projects insertion_order (Some "planned") (Some 1%Z) w_two)
  = Ok (map (listed_project db_two)
            (firstn 1 (filter (status_is (Some "planned")) (projects db_two)))).
Proof.
  apply (proj1 (@list_projects_answer insertion_order w_two (Some "planned")
                  (Some 1%Z) 1%Z ltac:(split; [reflexivity | lia]))).
Defined.

Lemma get_project_as_listed_witness :
  fst (@get_project insertion_order pA w_site) = Ok (listed_project db_site site_project).
Proof.
  apply (@get_project_as_listed insertion_order w_site site_project); reflexivity.
Defined.

Lemma list_tasks_notes_answer_witness :
  fst (@list_tasks insertion_order (Some pA) (Some "open") None w_site)
  = Ok (map serialize_dict
            (map task_dict
                 (firstn 200 (filter (task_selected (Some pA) (Some "open"))
                                     (tasks db_site))))).
Proof.
  apply (proj1 (@list_tasks_notes_answer insertion_order w_site None 200%Z eq_refl)).
Defined.

Lemma compose_reply_witness :
  compose [[("name", VStr "Website Redesign")]; [("owner", VStr "ann")]] w_site
  = (Ok (mk_response
           (found_reply 2 ["Website Redesign"; "Unnamed"])
           [[("name", VStr "Website Redesign")]; [("owner", VStr "ann")]]),
     w_site).
Proof.
  apply (proj1 (@compose_reply
                  [[("name", VStr "Website Redesign")]; [("owner", VStr "ann")]]
                  w_site ltac:(discriminate))).
  reflexivity.
Defined.

Lemma chat_outcome_witness :
  @chat_with_projects insertion_order (mk_request " ( ") w_site
  = (Err OperationFailure,
     mk_world db_site [call_find project (project_filter "(")]).
Proof.
  assert (Hq : @normalize insertion_order (mk_request " ( ") <> "")
    by (vm_compute; discriminate).
  apply (proj2 (@chat_outcome insertion_order (mk_request " ( ") w_site Hq)).
  reflexivity.
Defined.

End MoreExamples.
